(** * Classroom Engagement Index: scoring and trend interpretation

    A shallow embedding of the two core functions of [app.py],
    [compute_cei] and [interpret_engagement], with the constant tables
    they read ([CEI_WEIGHTS], [CEI_LEVEL_SCORES], [ENGAGEMENT_RULES]),
    and of the functions that write to the database.

    Number model.  Python integers are [Z].  Python floats are IEEE-754
    doubles, modelled by their value (module [Float]): a rational, an
    infinity or NaN.  Every arithmetic step rounds its exact result to
    the nearest double, ties to even, and leaves the finite range from
    [2^1024] on.  [int / int] gives the double nearest to the quotient
    and raises [OverflowError] when there is none; [round(x, 2)] rounds
    the exact value of [x] to two decimals, ties to even, and returns
    the double nearest to that decimal.  Module [Binary64] runs the same
    computations in the Standard Library's [SpecFloat] model of IEEE-754
    arithmetic, and the checks after the definitions compare the two.

    [series.mean()] is code of pandas, not of this program:
    [interpret_engagement] takes it as a parameter, and the theorems on
    the bands hold for whatever double it returns.  Where a property
    depends on the mean of the entries, it is stated for every mean that
    adds the entries up in double arithmetic, in any order, and divides
    by their number ([Pandas.mean_of]); [Pandas.mean], the mean by
    left-to-right summation, is used where a concrete series is
    evaluated.

    The store.  [init_db], [login], [class_setup] and the block of
    [daily_reflection] that saves a reflection are modelled over the
    statements they send to SQLite (module [Sql]): tables with their
    columns, key and rows, [CREATE TABLE IF NOT EXISTS] and [INSERT].

    Exceptions.  Dictionary subscripts, [/] and [round] can raise in
    Python, so the functions live in a small error monad ([result]);
    what the core can raise, and when, is then a theorem and not an
    assumption. *)

From Stdlib Require Import ZArith QArith Qround Qpower Lqa Lia SpecFloat.
From stdpp Require Import base option list gmap strings.

Local Open Scope Q_scope.

(** ** Binary64 numbers *)

Module Float.

(** A double by its value: a rational, an infinity or NaN.  The two
    zeros are one number here; no operation of the code tells them
    apart. *)
Inductive float : Type :=
| Finite (value : Q)
| Infinity (negative : bool)
| NaN.

(** Nearest integer, ties to the even one. *)
Definition round_half_even (q : Q) : Z :=
  let f := Qfloor q in
  match Qcompare (q - inject_Z f) (1 # 2) with
  | Lt => f
  | Gt => (f + 1)%Z
  | Eq => if Z.even f then f else (f + 1)%Z
  end.

(** The exponent [e] with [2^e <= a < 2^(e+1)], for [a > 0]. *)
Definition ilog2 (a : Q) : Z :=
  let k := (Z.log2 (Qnum a) - Z.log2 (Z.pos (Qden a)))%Z in
  if Qle_bool (2 ^ k) a then k else (k - 1)%Z.

(** The exponent of the last place of a double near [a]: 53 significant
    bits, and nothing finer than [2^-1074]. *)
Definition ulp_exponent (a : Q) : Z := Z.max (ilog2 a - 52) (-1074).

(** The multiple of the last place nearest to [a > 0], ties to even. *)
Definition nearest_pos (a : Q) : Q :=
  let e := ulp_exponent a in
  Qred (inject_Z (round_half_even (a / 2 ^ e)) * 2 ^ e).

Definition nearest (q : Q) : Q :=
  match Qnum q with
  | Z0 => 0
  | Z.pos _ => nearest_pos q
  | Z.neg _ => - nearest_pos (- q)
  end.

(** Rounding of an exact result to a double: to nearest, ties to even,
    to an infinity from [2^1024] on. *)
Definition round (q : Q) : float :=
  let v := nearest q in
  if Qle_bool (2 ^ 1024) v then Infinity false
  else if Qle_bool v (- 2 ^ 1024) then Infinity true
  else Finite v.

(** An integer as a number, exactly: Python compares an int with a
    float by value. *)
Definition exact (n : Z) : float := Finite (inject_Z n).

Definition sign (a : Q) : bool := (Qnum a <? 0)%Z.

Definition add (x y : float) : float :=
  match x, y with
  | NaN, _ | _, NaN => NaN
  | Infinity s, Infinity s' => if Bool.eqb s s' then Infinity s else NaN
  | Infinity s, Finite _ | Finite _, Infinity s => Infinity s
  | Finite a, Finite b => round (a + b)
  end.

Definition mul (x y : float) : float :=
  match x, y with
  | NaN, _ | _, NaN => NaN
  | Infinity s, Infinity s' => Infinity (xorb s s')
  | Infinity s, Finite a | Finite a, Infinity s =>
      if Qeq_bool a 0 then NaN else Infinity (xorb s (sign a))
  | Finite a, Finite b => round (a * b)
  end.

(** Division by a count, which is a positive integer. *)
Definition div_count (x : float) (count : positive) : float :=
  match x with
  | Finite a => round (a / inject_Z (Z.pos count))
  | Infinity _ | NaN => x
  end.

Definition ltb (x y : float) : bool :=
  match x, y with
  | NaN, _ | _, NaN => false
  | Finite a, Finite b => negb (Qle_bool b a)
  | Finite _, Infinity s => negb s
  | Infinity s, Finite _ => s
  | Infinity s, Infinity s' => s && negb s'
  end.

Definition leb (x y : float) : bool :=
  match x, y with
  | NaN, _ | _, NaN => false
  | Finite a, Finite b => Qle_bool a b
  | Finite _, Infinity s => negb s
  | Infinity s, Finite _ => s
  | Infinity s, Infinity s' => s || negb s'
  end.

(** The two comparisons as propositions. *)
Definition le (x y : float) : Prop := leb x y = true.
Definition lt (x y : float) : Prop := ltb x y = true.

Definition is_nan (x : float) : bool :=
  match x with
  | NaN => true
  | _ => false
  end.

End Float.

Import Float.

(** ** Python primitives *)

Module Py.

(** The exceptions the modelled expressions can raise. *)
Inductive exn : Type :=
| KeyError (key : string)
| ZeroDivisionError
| OverflowError.

(** Outcome of evaluating an expression: a value or a raised exception. *)
Inductive result (A : Type) : Type :=
| Ok (a : A)
| Raise (e : exn).

Arguments Ok {A} a.
Arguments Raise {A} e.

#[export] Instance result_ret : MRet result := fun _ a => Ok a.

#[export] Instance result_bind : MBind result := fun _ _ f m =>
  match m with
  | Ok a => f a
  | Raise e => Raise e
  end.

(** [d[k]]: subscript of a dictionary, [KeyError] when the key is absent. *)
Definition getitem {V : Type} (d : gmap string V) (k : string) : result V :=
  match d !! k with
  | Some v => Ok v
  | None => Raise (KeyError k)
  end.

(** [d.get(k, dflt)]. *)
Definition get {V : Type} (d : gmap string V) (k : string) (dflt : V) : V :=
  default dflt (d !! k).

(** A result that left the range of a double raises. *)
Definition checked (x : float) : result float :=
  match x with
  | Infinity _ => Raise OverflowError
  | _ => Ok x
  end.

(** [a / b] on integers: the double nearest to the quotient;
    [ZeroDivisionError] on [b = 0], [OverflowError] when the quotient is
    too large for a double. *)
Definition truediv (a b : Z) : result float :=
  if (b =? 0)%Z then Raise ZeroDivisionError
  else checked (round (inject_Z a / inject_Z b)).

(** The conversion of the int operand in [float * int]. *)
Definition float_of_int (n : Z) : result float :=
  checked (round (inject_Z n)).

(** [x * n] for a float [x] and an int [n]. *)
Definition mul_int (x : float) (n : Z) : result float :=
  y ← float_of_int n;
  mret (mul x y).

(** [min(x, n)] for a float [x] and an int [n]: the builtin keeps its
    first argument unless the second one is strictly smaller. *)
Definition min (x : float) (n : Z) : float :=
  if ltb (exact n) x then exact n else x.

(** [round(x, ndigits)] for a float and [ndigits >= 0]: the exact value
    is rounded to [ndigits] decimals, ties to even, and the double
    nearest to that decimal is returned; infinities and NaN are returned
    as they are. *)
Definition round (x : float) (ndigits : nat) : result float :=
  match x with
  | Finite v =>
      let p := Z.to_pos (10 ^ Z.of_nat ndigits) in
      checked (Float.round (round_half_even (v * inject_Z (Z.pos p)) # p))
  | Infinity _ | NaN => Ok x
  end.

(** A pandas series of scores. *)
Abbreviation Series := (list float).

(** [series.empty] *)
Definition empty (series : Series) : bool :=
  match series with
  | [] => true
  | _ :: _ => false
  end.

End Py.

Import Py.

(** ** pandas *)

Module Pandas.

(** [series.mean()] is code of pandas, and the functions below take it as
    a parameter.  What pandas computes for a series of doubles: NaN
    entries are skipped, the others are added up, and the sum is divided
    by their number; without entries the mean is NaN.

    [mean] adds from left to right, starting from 0.0.  That is the
    order for a series of fewer than eight entries, and for any series
    when pandas sums with bottleneck; numpy adds a longer series in
    blocks and pairs, which can change the last bits of the sum. *)
Definition sum (series : Series) : float := fold_left add series (exact 0).

Definition mean (series : Series) : float :=
  let known := List.filter (fun x => negb (is_nan x)) series in
  match Pos.of_nat (length known), known with
  | _, [] => NaN
  | count, _ :: _ => div_count (sum known) count
  end.

(** An order of additions: a tree of sums over entries of a series and
    zeros that a summation starts from. *)
Inductive summation : Type :=
| Entry (x : float)
| Zero
| Plus (l r : summation).

Fixpoint entries (t : summation) : Series :=
  match t with
  | Entry x => [x]
  | Zero => []
  | Plus l r => entries l ++ entries r
  end.

Fixpoint total (t : summation) : float :=
  match t with
  | Entry x => x
  | Zero => exact 0
  | Plus l r => add (total l) (total r)
  end.

(** [m] is a mean of a series without NaN: the entries added up in some
    order, each once, and divided by their number. *)
Definition mean_of (series : Series) (m : float) : Prop :=
  exists t : summation,
    entries t ≡ₚ series
    /\ m = div_count (total t) (Pos.of_nat (length series)).

(** The additions of [sum], as a tree. *)
Definition left_to_right (series : Series) : summation :=
  fold_left (fun t x => Plus t (Entry x)) series Zero.

End Pandas.

(** ** Core logic *)

(** Locked CEI scoring *)
Definition CEI_WEIGHTS : gmap string float :=
  {[ "participation" := Float.round 0.4;
     "attentiveness" := Float.round 0.4;
     "presence" := Float.round 0.2 ]}.

Definition CEI_LEVEL_SCORES : gmap string Z :=
  {[ "low" := 10%Z; "medium" := 25%Z; "high" := 40%Z ]}.

(** The presence term of [compute_cei] (the right-hand side of
    [presence_score = ...]); the guard [class_size <= 0] has already been
    passed when the code evaluates it. *)
Definition presence_score (present class_size : Z) : result float :=
  ratio ← truediv present class_size;
  high ← getitem CEI_LEVEL_SCORES "high";
  scaled ← mul_int ratio high;
  cap ← getitem CEI_LEVEL_SCORES "high";
  mret (Py.min scaled cap).

(** Returns CEI score for a single class session *)
Definition compute_cei (participation attentiveness : string)
    (present class_size : Z) : result float :=
  if (class_size <=? 0)%Z then mret (exact 0)
  else
    let part_score := get CEI_LEVEL_SCORES participation 0%Z in
    let att_score := get CEI_LEVEL_SCORES attentiveness 0%Z in
    presence_score ← presence_score present class_size;
    w_part ← getitem CEI_WEIGHTS "participation";
    part ← mul_int w_part part_score;
    w_att ← getitem CEI_WEIGHTS "attentiveness";
    att ← mul_int w_att att_score;
    w_pres ← getitem CEI_WEIGHTS "presence";
    let cei := Py.round (add (add part att) (mul w_pres presence_score)) 2 in
    cei.

(** One entry of [ENGAGEMENT_RULES]: the band [rule_min <= avg < rule_max]
    with the status and message it yields. *)
Record rule : Type := Rule {
  rule_min : Z;
  rule_max : Z;
  status : string;
  message : string
}.

(** Locked Engagement Interpretation Rules *)
Definition ENGAGEMENT_RULES : list rule :=
  [ Rule 75 100 "green" "Class is responding well. Keep your current approach.";
    Rule 60 75 "yellow" "Engagement is fair. Small adjustments may help.";
    Rule 0 60 "red" "Engagement is low. Consider changing pace or method." ].

(** The fallback after the loop. *)
Definition fallback : string * string :=
  ("red", "Engagement data unclear. Please reflect more consistently.").

(** The loop [for rule in rules: if rule.min <= avg < rule.max: return ...]
    followed by the fallback [return]. *)
Fixpoint interpret_avg (avg : float) (rules : list rule) : string * string :=
  match rules with
  | [] => fallback
  | rule :: rest =>
      if leb (exact (rule_min rule)) avg && ltb avg (exact (rule_max rule))
      then (status rule, message rule)
      else interpret_avg avg rest
  end.

(** [avg = series.mean() if not series.empty else 0] *)
Definition series_avg (mean : Series -> float) (series : Series) : float :=
  if negb (empty series) then mean series else exact 0.

(** Input: series of CEI scores; output: status colour and message.
    [mean] is pandas' [Series.mean]. *)
Definition interpret_engagement (mean : Series -> float) (series : Series)
    : string * string :=
  interpret_avg (series_avg mean series) ENGAGEMENT_RULES.



(** ** The specification's formula *)

(** The level-to-points mapping as the specification words it:
    low -> 10, medium -> 25, high -> 40, anything else -> 0. *)
Definition level_points (level : string) : Z :=
  if decide (level = "low") then 10
  else if decide (level = "medium") then 25
  else if decide (level = "high") then 40
  else 0.

(** The presence component as the specification words it,
    [min(ratio * 40, 40)], for the double [ratio] that
    [presentCount / classSize] gives. *)
Definition presence_component (ratio : float) : float :=
  Py.min (mul ratio (exact 40)) 40.

(** [0.4 * P + 0.4 * A + 0.2 * presence] in double arithmetic, added
    left to right. *)
Definition weighted_sum (participationLevel attentivenessLevel : string)
    (ratio : float) : float :=
  add (add (mul (Float.round 0.4) (exact (level_points participationLevel)))
           (mul (Float.round 0.4) (exact (level_points attentivenessLevel))))
      (mul (Float.round 0.2) (presence_component ratio)).

(** The final score as the specification words it. *)
Definition score_formula (participationLevel attentivenessLevel : string)
    (presentCount classSize : Z) : result float :=
  ratio ← truediv presentCount classSize;
  Py.round (weighted_sum participationLevel attentivenessLevel ratio) 2.

(** The three messages of the bands. *)
Definition green : string * string :=
  ("green", "Class is responding well. Keep your current approach.").
Definition yellow : string * string :=
  ("yellow", "Engagement is fair. Small adjustments may help.").
Definition red_low : string * string :=
  ("red", "Engagement is low. Consider changing pace or method.").

(** The band test of the loop in [interpret_engagement]:
    [rule["min"] <= avg < rule["max"]]. *)
Definition rule_matches (avg : float) (rule : rule) : bool :=
  leb (exact (rule_min rule)) avg && ltb avg (exact (rule_max rule)).


(** ** The SQLite store *)

Module Sql.

(** A stored value. *)
Inductive value : Type :=
| Null
| Integer (n : Z)
| Real (x : float)
| Text (s : string).

(** A row maps column names to values. *)
Abbreviation row := (gmap string value).

(** A table: its columns in declaration order, the columns of its
    primary key, the [AUTOINCREMENT] column if it has one, and its rows
    in insertion order. *)
Record table : Type := Table {
  columns : list string;
  primary_key : list string;
  autoincrement : option string;
  rows : list row
}.

Abbreviation database := (gmap string table).

(** What a statement or the Python code around it can raise. *)
Inductive failure : Type :=
| OperationalError (msg : string)
| IntegrityError (msg : string)
| PythonError (e : exn).

Inductive outcome (A : Type) : Type :=
| Done (a : A)
| Failed (e : failure).

Arguments Done {A} a.
Arguments Failed {A} e.

#[export] Instance outcome_ret : MRet outcome := fun _ a => Done a.

#[export] Instance outcome_bind : MBind outcome := fun _ _ f m =>
  match m with
  | Done a => f a
  | Failed e => Failed e
  end.

(** An exception of the core functions is not caught by their callers. *)
Definition lift {A : Type} (r : result A) : outcome A :=
  match r with
  | Ok a => Done a
  | Raise e => Failed (PythonError e)
  end.

(** Equality of two key values: [NULL] equals nothing, not even [NULL]. *)
Definition value_eqb (a b : value) : bool :=
  match a, b with
  | Integer m, Integer n => (m =? n)%Z
  | Text s, Text t => String.eqb s t
  | Integer m, Real (Finite q) | Real (Finite q), Integer m =>
      Qeq_bool (inject_Z m) q
  | Real (Finite p), Real (Finite q) => Qeq_bool p q
  | Real (Infinity s), Real (Infinity s') => Bool.eqb s s'
  | _, _ => false
  end.

(** [row.column = v] *)
Definition column_is (column : string) (v : value) (r : row) : bool :=
  match r !! column with
  | Some w => value_eqb w v
  | None => false
  end.

(** Two rows with the same primary key. *)
Definition same_key (key : list string) (r1 r2 : row) : bool :=
  forallb (fun column =>
             match r2 !! column with
             | Some v => column_is column v r1
             | None => false
             end) key.

(** The largest integer stored in a column, 0 if there is none. *)
Definition max_id (column : string) (rs : list row) : Z :=
  foldr (fun r acc =>
           match r !! column with
           | Some (Integer n) => Z.max n acc
           | _ => acc
           end) 0%Z rs.

(** The row that is stored: every column of the table gets the value
    bound to it, the next id if it is the autoincrement column, and
    [NULL] otherwise. *)
Definition complete (t : table) (bound : row) : row :=
  list_to_map
    (List.map (fun column =>
                 (column,
                  match bound !! column with
                  | Some v => v
                  | None =>
                      if bool_decide (autoincrement t = Some column)
                      then Integer (max_id column (rows t) + 1)
                      else Null
                  end))
              (columns t)).

(** [CREATE TABLE IF NOT EXISTS name (...)] *)
Definition create_table_if_not_exists (name : string)
    (columns key : list string) (auto : option string) (db : database)
    : database :=
  match db !! name with
  | Some _ => db
  | None => <[name := Table columns key auto []]> db
  end.

(** [INSERT [OR IGNORE] INTO name [(columns)] VALUES (?, ..., ?)] with the
    parameters [values]; without a column list the values go to the
    columns of the table in declaration order.  A column that the table
    does not have is refused before any value is looked at. *)
Definition insert (or_ignore : bool) (name : string)
    (into : option (list string)) (values : list value) (db : database)
    : outcome database :=
  match db !! name with
  | None => Failed (OperationalError ("no such table: " +:+ name))
  | Some t =>
      let named := default (columns t) into in
      match List.find (fun column => negb (bool_decide (column ∈ columns t)))
                      named with
      | Some column =>
          Failed (OperationalError
                    ("table " +:+ name +:+ " has no column named " +:+ column))
      | None =>
          if negb (length values =? length named)%nat
          then Failed (OperationalError "wrong number of values supplied")
          else
            let r := complete t (list_to_map (zip named values)) in
            if existsb (same_key (primary_key t) r) (rows t)
               && negb (bool_decide (primary_key t = []))
            then
              if or_ignore then Done db
              else Failed (IntegrityError
                             ("UNIQUE constraint failed: " +:+ name))
            else
              Done (<[name := Table (columns t) (primary_key t)
                                    (autoincrement t) (rows t ++ [r])]> db)
      end
  end.

End Sql.

(** ** The pages that write to the store *)

Module App.

Import Sql.

(** [st.session_state]: both entries start as [None]. *)
Record session : Type := Session {
  state_school_id : option string;
  state_teacher_id : option string
}.

(** What a page shows. *)
Inductive output : Type :=
| Title (text : string)
| Header (text : string)
| Error (text : string)
| Success (text : string)
| SuccessScore (text : string) (score : float) (unit : string).

(** Truth value of a string. *)
Definition truthy (s : string) : bool := negb (String.eqb s "").

(** A session entry as a statement parameter. *)
Definition parameter (entry : option string) : value :=
  match entry with
  | Some s => Text s
  | None => Null
  end.

(** *** DATABASE *)

Definition init_db (db : database) : database :=
  let db :=
    create_table_if_not_exists "teachers"
      ["teacher_id"; "school_id"; "teacher_name"]
      ["teacher_id"; "school_id"] None db in
  let db :=
    create_table_if_not_exists "classes"
      ["class_id"; "subject_id"; "school_id"; "class_size"] [] None db in
  let db :=
    create_table_if_not_exists "daily_reflections"
      ["id"; "school_id"; "teacher_id"; "class_id"; "subject_id";
       "session_date"; "number_present"; "participation_level";
       "attentiveness_level"; "task_given"; "note"; "cei_score"]
      ["id"] (Some "id") db in
  create_table_if_not_exists "weekly_reflections"
    ["id"; "school_id"; "teacher_id"; "week"; "reflection"]
    ["id"] (Some "id") db.

(** *** LOGIN *)

(** The widgets of the login page: three text inputs and the button. *)
Record login_form : Type := LoginForm {
  login_school_id : string;
  login_teacher_id : string;
  login_teacher_name : string;
  continue : bool
}.

(** [login()]; the boolean tells whether it ended in [st.rerun()]. *)
Definition login (form : login_form) (db : database) (state : session)
    : outcome (database * session * list output * bool) :=
  let school_id := login_school_id form in
  let teacher_id := login_teacher_id form in
  let teacher_name := login_teacher_name form in
  let page := [Title "Teacher Classroom Reflection"] in
  if continue form then
    if truthy school_id && truthy teacher_id && truthy teacher_name then
      db ← insert true "teachers" None
             [Text teacher_id; Text school_id; Text teacher_name] db;
      mret (db, Session (Some school_id) (Some teacher_id), page, true)
    else
      mret (db, state, page ++ [Error "All fields are required"], false)
  else mret (db, state, page, false).

(** *** CLASS SETUP *)

(** The widgets of the class form; the number input has [min_value=1]. *)
Record class_form : Type := ClassForm {
  class_id : string;
  subject_id : string;
  class_size : Z;
  class_submitted : bool
}.

Definition class_setup (form : class_form) (db : database) (state : session)
    : outcome (database * list output) :=
  let page := [Header "Class Setup"] in
  if class_submitted form then
    db ← insert false "classes" None
           [Text (class_id form); Text (subject_id form);
            parameter (state_school_id state); Integer (class_size form)] db;
    mret (db, page ++ [Success "Class added successfully"])
  else mret (db, page).

(** *** DAILY REFLECTION *)

(** What the daily form holds when it is submitted, with the row of the
    selected class: the date as the text SQLite stores, the number
    present, the two levels and the task (select boxes), the two text
    areas. *)
Record daily_form : Type := DailyForm {
  row_class_id : value;
  row_subject_id : value;
  session_date : string;
  present : Z;
  participation : string;
  attentiveness : string;
  task : string;
  topic : string;
  note : string
}.

(** The block of [daily_reflection] under [if submitted:], after the
    call of [compute_cei], whose outcome is [cei].  (The class size that
    the call gets is numpy's integer of the selected row, and its
    arithmetic is numpy's; the block does not look at how the score came
    about.) *)
Definition save_reflection (cei : result float) (form : daily_form)
    (db : database) (state : session) : outcome (database * list output) :=
  cei ← lift cei;
  db ← insert false "daily_reflections"
         (Some ["school_id"; "teacher_id"; "class_id"; "subject_id";
                "session_date"; "number_present";
                "participation_level"; "attentiveness_level";
                "task_given"; "note"; "topic"; "cei_score"])
         [parameter (state_school_id state);
          parameter (state_teacher_id state);
          row_class_id form;
          row_subject_id form;
          Text (session_date form);
          Integer (present form);
          Text (participation form);
          Text (attentiveness form);
          Text (task form);
          Text (topic form);
          Text (note form);
          Real cei] db;
  mret (db, [SuccessScore "Reflection saved. Engagement score: " cei "%"]).

End App.

(** The table [daily_reflections] as [init_db] creates it. *)
Definition new_daily_reflections : Sql.table :=
  Sql.Table
    ["id"; "school_id"; "teacher_id"; "class_id"; "subject_id";
     "session_date"; "number_present"; "participation_level";
     "attentiveness_level"; "task_given"; "note"; "cei_score"]
    ["id"] (Some "id") [].


(** ** The same computations in the Standard Library's IEEE-754 model *)

Module Binary64.

Definition prec : Z := 53.
Definition emax : Z := 1024.

(** The double nearest to an integer. *)
Definition of_int (n : Z) : spec_float := binary_normalize prec emax n 0 false.

Definition mul : spec_float -> spec_float -> spec_float := SFmul prec emax.
Definition add : spec_float -> spec_float -> spec_float := SFadd prec emax.
Definition div : spec_float -> spec_float -> spec_float := SFdiv prec emax.

(** A decimal literal with two decimals, [cents / 100]. *)
Definition literal (cents : Z) : spec_float := div (of_int cents) (of_int 100).

(** The weights [0.4] and [0.2], evaluated once. *)
Definition weight_04 : spec_float := Eval vm_compute in literal 40.
Definition weight_02 : spec_float := Eval vm_compute in literal 20.

(** [min(x, n)] *)
Definition min (x : spec_float) (n : Z) : spec_float :=
  if SFltb (of_int n) x then of_int n else x.

(** The number that a [spec_float] stands for. *)
Definition to_float (x : spec_float) : float :=
  match x with
  | S754_zero _ => Finite 0
  | S754_finite s m e =>
      let n := if s then Z.neg m else Z.pos m in
      Finite (Qred match e with
                   | Z0 => n # 1
                   | Z.pos k => (n * 2 ^ Z.pos k) # 1
                   | Z.neg k => n # (2 ^ k)
                   end)
  | S754_infinity s => Infinity s
  | S754_nan => NaN
  end.

(** Equality of two numbers (NaN taken equal to itself). *)
Definition eqb (x y : float) : bool :=
  match x, y with
  | Finite a, Finite b => Qeq_bool a b
  | Infinity s, Infinity s' => Bool.eqb s s'
  | NaN, NaN => true
  | _, _ => false
  end.

(** The argument of [round] in [compute_cei], past the guard, from the
    two level scores, the present count and the class size. *)
Definition cei_sum (part_score att_score present class_size : Z)
    : spec_float :=
  let presence_score :=
    min (mul (div (of_int present) (of_int class_size)) (of_int 40)) 40 in
  add (add (mul weight_04 (of_int part_score))
           (mul weight_04 (of_int att_score)))
      (mul weight_02 presence_score).

(** Is [weighted_sum] that sum? *)
Definition agrees (level_a level_b : string) (present class_size : Z) : bool :=
  match truediv present class_size with
  | Ok ratio =>
      eqb (to_float (cei_sum (get CEI_LEVEL_SCORES level_a 0%Z)
                             (get CEI_LEVEL_SCORES level_b 0%Z)
                             present class_size))
          (weighted_sum level_a level_b ratio)
  | Raise _ => false
  end.

(** The integers [lo, lo + 1, ..., lo + n - 1]. *)
Definition range (lo : Z) (n : nat) : list Z :=
  List.map (fun i => (lo + Z.of_nat i)%Z) (seq 0 n).

(** [agrees] on every pair of levels (and an unknown one), every class
    size from 1 to [n] and every present count from minus the class size
    to twice the class size. *)
Definition agrees_up_to (n : nat) : bool :=
  forallb (fun class_size =>
    forallb (fun present =>
      forallb (fun level_a =>
        forallb (fun level_b => agrees level_a level_b present class_size)
                ["low"; "medium"; "high"; "other"])
              ["low"; "medium"; "high"; "other"])
            (range (- class_size) (Z.to_nat (3 * class_size + 1))))
          (range 1 n).

(** The mean of a series of two-decimal literals, added left to right. *)
Definition mean (cents : list Z) : spec_float :=
  div (fold_left add (List.map literal cents) (of_int 0))
      (of_int (Z.of_nat (length cents))).

(** Is [Pandas.mean] of the same literals that mean? *)
Definition mean_agrees (cents : list Z) : bool :=
  eqb (to_float (mean cents))
      (Pandas.mean (List.map (fun c => Float.round (c # 100)) cents)).

End Binary64.

(** ** Sanity checks on concrete inputs *)

(** Doubles of some literals. *)
Example round_literals :
  Float.round 0.5 = Finite (1 # 2)
  /\ Float.round 0.1 = Finite (3602879701896397 # 36028797018963968)
  /\ Float.round (2 ^ 1024) = Infinity false
  /\ Float.round (2 ^ 1024 - 2 ^ 970) = Infinity false
  /\ Float.round (2 ^ 1024 - 2 ^ 971) = Finite (Qred (2 ^ 1024 - 2 ^ 971))
  /\ Float.round (2 ^ (-1075)) = Finite 0
  /\ Float.round (3 * 2 ^ (-1075)) = Finite (Qred (2 ^ (-1073))).
Proof. repeat split; vm_compute; reflexivity. Qed.

(** [1 / 3], [2 / 3], a quotient of integers too long for a double each,
    and the two exceptions of [/]. *)
Example truediv_examples :
  truediv 1 3 = Ok (Finite (6004799503160661 # 18014398509481984))
  /\ truediv 2 3 = Ok (Finite (6004799503160661 # 9007199254740992))
  /\ truediv (10 ^ 400) (10 ^ 399) = Ok (Finite 10)
  /\ truediv 1 0 = Raise ZeroDivisionError
  /\ truediv (10 ^ 400) 1 = Raise OverflowError.
Proof. repeat split; vm_compute; reflexivity. Qed.

(** [round(0.125, 2)] is 0.12 and [round(0.375, 2)] is 0.38: ties go to
    the even hundredth; [round(2.675, 2)] is 2.67, because the double
    2.675 is below the decimal. *)
Example round_examples :
  Py.round (Float.round 0.125) 2 = Ok (Float.round 0.12)
  /\ Py.round (Float.round 0.375) 2 = Ok (Float.round 0.38)
  /\ Py.round (Float.round 2.675) 2 = Ok (Float.round 2.67)
  /\ Py.round (Float.round (-0.125)) 2 = Ok (Float.round (-0.12))
  /\ Py.round (Infinity true) 2 = Ok (Infinity true)
  /\ Py.round NaN 2 = Ok NaN.
Proof. repeat split; vm_compute; reflexivity. Qed.

Example cei_high_high_full : compute_cei "high" "high" 30 30 = Ok (Finite 40).
Proof. vm_compute. reflexivity. Qed.

Example cei_low_low_none : compute_cei "low" "low" 0 10 = Ok (Finite 8).
Proof. vm_compute. reflexivity. Qed.

(** The double sum decides the last decimal: the exact values of the
    formula are 8.025 and 26.075 here. *)
Example cei_last_decimal :
  compute_cei "low" "low" 1 320 = Ok (Float.round 8.03)
  /\ compute_cei "high" "medium" 3 320 = Ok (Float.round 26.07).
Proof. split; vm_compute; reflexivity. Qed.

(** A product that leaves the range of a double is an infinity, not an
    exception. *)
Example cei_infinite :
  compute_cei "low" "low" (10 ^ 307) 1 = Ok (Finite 16)
  /\ compute_cei "low" "low" (- 10 ^ 307) 1 = Ok (Infinity true).
Proof. split; vm_compute; reflexivity. Qed.

Example trend_green :
  interpret_engagement Pandas.mean [exact 80; exact 90] = green.
Proof. vm_compute. reflexivity. Qed.

Example trend_yellow :
  interpret_engagement Pandas.mean [exact 65; exact 70] = yellow.
Proof. vm_compute. reflexivity. Qed.

Example trend_red :
  interpret_engagement Pandas.mean [exact 30; exact 40] = red_low.
Proof. vm_compute. reflexivity. Qed.

Example trend_nan : interpret_engagement Pandas.mean [NaN] = fallback.
Proof. vm_compute. reflexivity. Qed.

(** The mean is a double too.  The four doubles 61.41, 79.86, 51.35 and
    47.38 add up to exactly 240, but their sum in double arithmetic is
    one place below, and so is the mean: red, not yellow. *)
Example trend_mean_below_60 :
  nearest 61.41 + nearest 79.86 + nearest 51.35 + nearest 47.38 == 240
  /\ Pandas.mean [Float.round 61.41; Float.round 79.86; Float.round 51.35;
                  Float.round 47.38]
     = Finite (8444249301319679 # 140737488355328)
  /\ interpret_engagement Pandas.mean
       [Float.round 61.41; Float.round 79.86; Float.round 51.35;
        Float.round 47.38]
     = red_low.
Proof. repeat split; vm_compute; reflexivity. Qed.

(** Likewise at 100 and at 0. *)
Example trend_mean_below_100 :
  nearest 51.89 + nearest 190.5 + nearest 126.78 + nearest 30.83 == 400
  /\ interpret_engagement Pandas.mean
       [Float.round 51.89; Float.round 190.5; Float.round 126.78;
        Float.round 30.83]
     = green.
Proof. repeat split; vm_compute; reflexivity. Qed.

Example trend_mean_below_0 :
  nearest 28.38 + nearest 17.0 + nearest (-36.97) + nearest (-8.41) == 0
  /\ interpret_engagement Pandas.mean
       [Float.round 28.38; Float.round 17.0; Float.round (-36.97);
        Float.round (-8.41)]
     = fallback.
Proof. repeat split; vm_compute; reflexivity. Qed.

(** ** Agreement with the IEEE-754 model of the Standard Library *)

Example binary64_literals :
  Binary64.to_float Binary64.weight_04 = Float.round 0.4
  /\ Binary64.to_float Binary64.weight_02 = Float.round 0.2
  /\ Binary64.to_float (Binary64.literal 803) = Float.round 8.03
  /\ Binary64.to_float (Binary64.literal (-3697)) = Float.round (-36.97).
Proof. repeat split; vm_compute; reflexivity. Qed.

Example binary64_agrees : Binary64.agrees_up_to 12 = true.
Proof. vm_cast_no_check (eq_refl true). Qed.

Example binary64_agrees_320 :
  Binary64.agrees "low" "low" 1 320 = true
  /\ Binary64.agrees "high" "medium" 3 320 = true
  /\ Binary64.agrees "low" "low" (-10 ^ 307) 1 = true
  /\ Binary64.agrees "low" "low" (10 ^ 307) 1 = true.
Proof. repeat split; vm_compute; reflexivity. Qed.

Example binary64_mean_agrees :
  Binary64.mean_agrees [6141; 7986; 5135; 4738]%Z = true
  /\ Binary64.mean_agrees [5189; 19050; 12678; 3083]%Z = true
  /\ Binary64.mean_agrees [2838; 1700; -3697; -841]%Z = true
  /\ Binary64.mean_agrees [4000; 2400; 2800]%Z = true.
Proof. repeat split; vm_compute; reflexivity. Qed.

(** * Lemmas *)

(** ** Powers of two *)

Section Powers.

Implicit Types e k : Z.

Lemma pow2_pos e : 0 < 2 ^ e.
Proof. apply Qpower_0_lt. reflexivity. Qed.

Lemma pow2_plus e k : 2 ^ (e + k) == 2 ^ e * 2 ^ k.
Proof. apply Qpower_plus. discriminate. Qed.

Lemma pow2_mono e k : (e <= k)%Z -> 2 ^ e <= 2 ^ k.
Proof. intros H. apply Qpower_le_compat_l; [exact H | discriminate]. Qed.

Lemma pow2_Z k : (0 <= k)%Z -> inject_Z (2 ^ k) == 2 ^ k.
Proof. intros H. now rewrite Zpower_Qpower. Qed.

Lemma pow2_succ e : 2 ^ (e + 1) == 2 * 2 ^ e.
Proof. rewrite pow2_plus. change (2 ^ 1) with 2. ring. Qed.

(** Dividing by a power of two. *)
Lemma div_pow2_le a b e : a <= b -> a / 2 ^ e <= b / 2 ^ e.
Proof.
  intros H. apply Qmult_le_compat_r; [exact H |].
  apply Qlt_le_weak, Qinv_lt_0_compat, pow2_pos.
Qed.

Lemma pow2_div e k : 2 ^ e / 2 ^ k == 2 ^ (e - k).
Proof. symmetry. apply Qpower_minus. discriminate. Qed.

End Powers.

(** ** The binary exponent of a positive rational *)

Section Exponent.

Implicit Types a b : Q.

Lemma Qnum_pos a : 0 < a -> (0 < Qnum a)%Z.
Proof. unfold Qlt. cbn. lia. Qed.

(** [ilog2 a] is the exponent of the binade of [a]. *)
Lemma ilog2_spec a : 0 < a -> 2 ^ ilog2 a <= a < 2 ^ (ilog2 a + 1).
Proof.
  intros Ha. pose proof (Qnum_pos a Ha) as Hn.
  unfold ilog2. set (ln := Z.log2 (Qnum a)). set (ld := Z.log2 (Z.pos (Qden a))).
  destruct (Z.log2_spec (Qnum a) Hn) as [Hn1 Hn2]. fold ln in Hn1, Hn2.
  destruct (Z.log2_spec (Z.pos (Qden a)) (Pos2Z.is_pos _)) as [Hd1 Hd2].
  fold ld in Hd1, Hd2.
  assert (0 <= ln)%Z as Hln by apply Z.log2_nonneg.
  assert (0 <= ld)%Z as Hld by apply Z.log2_nonneg.
  rewrite Zle_Qle, pow2_Z in Hn1, Hd1 by lia.
  rewrite Zlt_Qlt, pow2_Z in Hn2, Hd2 by lia.
  assert (a == inject_Z (Qnum a) / inject_Z (Z.pos (Qden a))) as Hdiv.
  { destruct a as [n d]. apply Qmake_Qdiv. }
  assert (0 < inject_Z (Z.pos (Qden a))) as Hd0 by (unfold Qlt; cbn; lia).
  pose proof (pow2_pos (ln - ld)) as Hk0.
  assert (2 ^ (ln - ld - 1) < a) as Hlow.
  { rewrite Hdiv. apply Qlt_shift_div_l; [exact Hd0 |].
    apply Qlt_le_trans with (2 ^ (ln - ld - 1) * 2 ^ (ld + 1)).
    - apply Qmult_lt_l; [apply pow2_pos | exact Hd2].
    - rewrite <- pow2_plus. replace (ln - ld - 1 + (ld + 1))%Z with ln by lia.
      exact Hn1. }
  assert (a < 2 ^ (ln - ld + 1)) as Hhigh.
  { rewrite Hdiv. apply Qlt_shift_div_r; [exact Hd0 |].
    apply Qlt_le_trans with (2 ^ (ln + 1)); [exact Hn2 |].
    replace (ln + 1)%Z with (ln - ld + 1 + ld)%Z at 1 by lia.
    rewrite pow2_plus. apply Qmult_le_l; [apply pow2_pos | exact Hd1]. }
  destruct (Qle_bool (2 ^ (ln - ld)) a) eqn:E.
  - apply Qle_bool_iff in E. split; [exact E | exact Hhigh].
  - apply not_true_iff_false in E. rewrite Qle_bool_iff in E.
    apply Qnot_le_lt in E.
    replace (ln - ld - 1 + 1)%Z with (ln - ld)%Z by lia.
    split; [apply Qlt_le_weak, Hlow | exact E].
Qed.

Lemma ilog2_mono a b : 0 < a -> a <= b -> (ilog2 a <= ilog2 b)%Z.
Proof.
  intros Ha Hab. assert (0 < b) as Hb by lra.
  destruct (ilog2_spec a Ha) as [Ha1 _].
  destruct (ilog2_spec b Hb) as [_ Hb2].
  destruct (Z.le_gt_cases (ilog2 a) (ilog2 b)) as [| Hgt]; [assumption |].
  pose proof (pow2_mono (ilog2 b + 1) (ilog2 a) ltac:(lia)). lra.
Qed.

Lemma ulp_exponent_mono a b :
  0 < a -> a <= b -> (ulp_exponent a <= ulp_exponent b)%Z.
Proof.
  intros Ha Hab. pose proof (ilog2_mono a b Ha Hab). unfold ulp_exponent. lia.
Qed.

End Exponent.

(** ** Rounding to the nearest integer *)

Section Integers.

Implicit Types q : Q.

Lemma round_half_even_cases q :
  round_half_even q = Qfloor q \/ round_half_even q = (Qfloor q + 1)%Z.
Proof.
  unfold round_half_even.
  destruct (Qcompare _ _); [destruct (Z.even _) | |]; auto.
Qed.

Lemma round_half_even_comp q1 q2 :
  q1 == q2 -> round_half_even q1 = round_half_even q2.
Proof.
  intros Heq. unfold round_half_even.
  rewrite (Qfloor_comp _ _ Heq).
  assert (q1 - inject_Z (Qfloor q2) == q2 - inject_Z (Qfloor q2)) as Hfrac
    by (rewrite Heq; reflexivity).
  now rewrite (Qcompare_comp _ _ Hfrac _ _ (Qeq_refl (1 # 2))).
Qed.

Lemma round_half_even_ge (lo : Z) q :
  inject_Z lo <= q -> (lo <= round_half_even q)%Z.
Proof.
  intros Hlo.
  assert (lo <= Qfloor q)%Z as Hl.
  { rewrite <- (Qfloor_Z lo). now apply Qfloor_resp_le. }
  destruct (round_half_even_cases q) as [-> | ->]; lia.
Qed.

Lemma round_half_even_le (hi : Z) q :
  q <= inject_Z hi -> (round_half_even q <= hi)%Z.
Proof.
  intros Hhi. unfold round_half_even.
  pose proof (Qfloor_le q) as Hfl.
  assert (Qfloor q <= hi)%Z as Hh.
  { rewrite <- (Qfloor_Z hi). now apply Qfloor_resp_le. }
  assert (inject_Z (Qfloor q) < q -> (Qfloor q + 1 <= hi)%Z) as Hstep.
  { intros Hne. apply Z.le_succ_l. rewrite Zlt_Qlt. lra. }
  destruct (Qcompare (q - inject_Z (Qfloor q)) (1 # 2)) eqn:C.
  - apply Qeq_alt in C. destruct (Z.even (Qfloor q)); [lia |].
    apply Hstep. lra.
  - lia.
  - apply Qgt_alt in C. apply Hstep. lra.
Qed.

Lemma round_half_even_mono q1 q2 :
  q1 <= q2 -> (round_half_even q1 <= round_half_even q2)%Z.
Proof.
  intros Hle. pose proof (Qfloor_resp_le _ _ Hle) as Hfl.
  destruct (Z.eq_dec (Qfloor q1) (Qfloor q2)) as [Heq | Hne].
  - unfold round_half_even. rewrite Heq.
    destruct (Qcompare (q1 - inject_Z (Qfloor q2)) (1 # 2)) eqn:C1;
      destruct (Qcompare (q2 - inject_Z (Qfloor q2)) (1 # 2)) eqn:C2;
      try (destruct (Z.even (Qfloor q2))); try lia;
      repeat match goal with
      | H : Qcompare _ _ = Eq |- _ => apply Qeq_alt in H
      | H : Qcompare _ _ = Lt |- _ => apply Qlt_alt in H
      | H : Qcompare _ _ = Gt |- _ => apply Qgt_alt in H
      end; exfalso; lra.
  - destruct (round_half_even_cases q1) as [-> | ->];
      (assert (Qfloor q2 <= round_half_even q2)%Z
        by (destruct (round_half_even_cases q2) as [-> | ->]; lia)); lia.
Qed.

(** The nearest integer is within one half. *)
Lemma round_half_even_error q :
  q - (1 # 2) <= inject_Z (round_half_even q) <= q + (1 # 2).
Proof.
  unfold round_half_even.
  pose proof (Qfloor_le q) as Hfl. pose proof (Qlt_floor q) as Hlt.
  rewrite inject_Z_plus in Hlt. change (inject_Z 1) with 1 in Hlt.
  destruct (Qcompare (q - inject_Z (Qfloor q)) (1 # 2)) eqn:C.
  - apply Qeq_alt in C. destruct (Z.even (Qfloor q));
      rewrite ?inject_Z_plus; change (inject_Z 1) with 1; lra.
  - apply Qlt_alt in C. lra.
  - apply Qgt_alt in C. rewrite inject_Z_plus. change (inject_Z 1) with 1. lra.
Qed.

Lemma round_half_even_Z (n : Z) : round_half_even (inject_Z n) = n.
Proof.
  unfold round_half_even. rewrite Qfloor_Z.
  assert (inject_Z n - inject_Z n == 0) as H0 by ring.
  rewrite (Qcompare_comp _ _ H0 _ _ (Qeq_refl (1 # 2))). reflexivity.
Qed.

End Integers.

(** ** Rounding to the nearest double *)

Section Nearest.

Implicit Types a b q : Q.

(** The value [nearest_pos] reduces. *)
Lemma nearest_pos_value a :
  nearest_pos a
  == inject_Z (round_half_even (a / 2 ^ ulp_exponent a)) * 2 ^ ulp_exponent a.
Proof. unfold nearest_pos. apply Qred_correct. Qed.

(** The rounded value is within half a unit in the last place. *)
Lemma nearest_pos_error a :
  a - 2 ^ ulp_exponent a / 2 <= nearest_pos a <= a + 2 ^ ulp_exponent a / 2.
Proof.
  rewrite nearest_pos_value.
  pose proof (pow2_pos (ulp_exponent a)) as Hp.
  pose proof (round_half_even_error (a / 2 ^ ulp_exponent a)) as [H1 H2].
  set (u := 2 ^ ulp_exponent a) in *.
  set (z := inject_Z (round_half_even (a / u))) in *.
  assert (a - u / 2 == (a / u - (1 # 2)) * u) as -> by (field; lra).
  assert (a + u / 2 == (a / u + (1 # 2)) * u) as -> by (field; lra).
  split; apply Qmult_le_compat_r; lra.
Qed.

Lemma nearest_pos_nonneg a : 0 <= a -> 0 <= nearest_pos a.
Proof.
  intros Ha. rewrite nearest_pos_value.
  pose proof (pow2_pos (ulp_exponent a)) as Hp.
  apply Qmult_le_0_compat; [| lra].
  change 0 with (inject_Z 0). rewrite <- Zle_Qle.
  apply round_half_even_ge. change (inject_Z 0) with 0.
  apply Qle_shift_div_l; [exact Hp | lra].
Qed.

Lemma nearest_pos_mono a b : 0 < a -> a <= b -> nearest_pos a <= nearest_pos b.
Proof.
  intros Ha Hab. assert (0 < b) as Hb by lra.
  rewrite !nearest_pos_value.
  pose proof (ulp_exponent_mono a b Ha Hab) as Hx.
  pose proof (ilog2_mono a b Ha Hab) as He.
  destruct (ilog2_spec a Ha) as [_ Ha2].
  destruct (ilog2_spec b Hb) as [Hb1 _].
  destruct (Z.eq_dec (ulp_exponent a) (ulp_exponent b)) as [Heq | Hne].
  - rewrite Heq. pose proof (pow2_pos (ulp_exponent b)) as Hp.
    apply Qmult_le_compat_r; [| lra].
    rewrite <- Zle_Qle. apply round_half_even_mono. now apply div_pow2_le.
  - assert (ulp_exponent b = ilog2 b - 52 /\ ilog2 a + 1 <= ilog2 b
            /\ 0 <= ilog2 b - ulp_exponent a)%Z as (Hxb & Hea & Hd)
      by (unfold ulp_exponent in *; lia).
    set (xa := ulp_exponent a) in *. set (xb := ulp_exponent b) in *.
    set (ea := ilog2 a) in *. set (eb := ilog2 b) in *.
    apply Qle_trans with (2 ^ eb).
    + assert (round_half_even (a / 2 ^ xa) <= 2 ^ (eb - xa))%Z as Hm.
      { apply round_half_even_le. rewrite pow2_Z by exact Hd.
        rewrite <- pow2_div. apply div_pow2_le.
        pose proof (pow2_mono (ea + 1) eb Hea). lra. }
      rewrite Zle_Qle, pow2_Z in Hm by exact Hd.
      assert (2 ^ eb == 2 ^ (eb - xa) * 2 ^ xa) as ->.
      { rewrite <- pow2_plus. now replace (eb - xa + xa)%Z with eb by lia. }
      pose proof (pow2_pos xa).
      apply Qmult_le_compat_r; [exact Hm | lra].
    + assert (2 ^ 52 <= round_half_even (b / 2 ^ xb))%Z as Hm.
      { apply round_half_even_ge. rewrite pow2_Z by lia.
        replace 52%Z with (eb - xb)%Z by lia.
        rewrite <- pow2_div. now apply div_pow2_le. }
      rewrite Zle_Qle, pow2_Z in Hm by lia.
      assert (2 ^ eb == 2 ^ 52 * 2 ^ xb) as ->.
      { rewrite <- pow2_plus. now replace (52 + xb)%Z with eb by lia. }
      pose proof (pow2_pos xb).
      apply Qmult_le_compat_r; [exact Hm | lra].
Qed.

(** The three cases of [nearest], by the sign of its argument. *)
Lemma nearest_cases q :
  (q == 0 /\ nearest q = 0)
  \/ (0 < q /\ nearest q = nearest_pos q)
  \/ (q < 0 /\ nearest q = - nearest_pos (- q)).
Proof.
  unfold nearest. destruct q as [[| n | n] d]; cbn [Qnum].
  - left. split; reflexivity.
  - right; left. split; reflexivity.
  - right; right. split; reflexivity.
Qed.

(** Rounding to the nearest double is monotone. *)
Lemma nearest_mono q1 q2 : q1 <= q2 -> nearest q1 <= nearest q2.
Proof.
  intros Hle.
  destruct (nearest_cases q1) as [[H1 ->] | [[H1 ->] | [H1 ->]]];
    destruct (nearest_cases q2) as [[H2 ->] | [[H2 ->] | [H2 ->]]];
    try (exfalso; lra).
  - lra.
  - apply nearest_pos_nonneg. lra.
  - now apply nearest_pos_mono.
  - pose proof (nearest_pos_nonneg (- q1)). lra.
  - pose proof (nearest_pos_nonneg (- q1)).
    pose proof (nearest_pos_nonneg q2). lra.
  - pose proof (nearest_pos_mono (- q2) (- q1)). lra.
Qed.

Lemma nearest_nonneg q : 0 <= q -> 0 <= nearest q.
Proof. intros H. apply (nearest_mono 0 q H). Qed.

Lemma nearest_nonpos q : q <= 0 -> nearest q <= 0.
Proof. intros H. apply (nearest_mono q 0 H). Qed.

(** An integer of at most 53 bits is a double. *)
Lemma nearest_pos_int (n : Z) :
  (0 < n < 2 ^ 53)%Z -> nearest_pos (inject_Z n) == inject_Z n.
Proof.
  intros [Hn0 Hn]. rewrite nearest_pos_value.
  assert (0 < inject_Z n) as Hq by (change 0 with (inject_Z 0); now rewrite <- Zlt_Qlt).
  destruct (ilog2_spec (inject_Z n) Hq) as [He _].
  assert (ilog2 (inject_Z n) <= 52)%Z as He52.
  { destruct (Z.le_gt_cases (ilog2 (inject_Z n)) 52) as [| Hgt]; [assumption |].
    pose proof (pow2_mono 53 (ilog2 (inject_Z n)) ltac:(lia)) as Hp.
    rewrite Zlt_Qlt, pow2_Z in Hn by lia. lra. }
  set (x := ulp_exponent (inject_Z n)).
  assert (x <= 0)%Z as Hx by (unfold x, ulp_exponent; lia).
  assert (inject_Z n / 2 ^ x == inject_Z (n * 2 ^ (- x))) as Hint.
  { rewrite inject_Z_mult, pow2_Z by lia. rewrite Qpower_opp.
    unfold Qdiv. reflexivity. }
  rewrite (round_half_even_comp _ _ Hint), round_half_even_Z.
  rewrite inject_Z_mult, pow2_Z by lia. rewrite <- Qmult_assoc, <- pow2_plus.
  replace (- x + x)%Z with 0%Z by lia. change (2 ^ 0) with 1. ring.
Qed.

Lemma nearest_int (n : Z) :
  (- 2 ^ 53 < n < 2 ^ 53)%Z -> nearest (inject_Z n) == inject_Z n.
Proof.
  intros Hn. destruct (nearest_cases (inject_Z n)) as [[H ->] | [[H ->] | [H ->]]].
  - now rewrite H.
  - apply nearest_pos_int. change 0 with (inject_Z 0) in H.
    rewrite <- Zlt_Qlt in H. lia.
  - change 0 with (inject_Z 0) in H. rewrite <- Zlt_Qlt in H.
    rewrite <- inject_Z_opp, nearest_pos_int by lia.
    rewrite inject_Z_opp. ring.
Qed.

End Nearest.


(** ** Doubles *)

Section Doubles.

Implicit Types q L B : Q.
Implicit Types x y : float.

Lemma round_cases q :
  (Float.round q = Finite (nearest q) /\ - 2 ^ 1024 < nearest q < 2 ^ 1024)
  \/ (Float.round q = Infinity false /\ 2 ^ 1024 <= nearest q)
  \/ (Float.round q = Infinity true /\ nearest q <= - 2 ^ 1024).
Proof.
  unfold Float.round. cbn zeta.
  destruct (Qle_bool (2 ^ 1024) (nearest q)) eqn:E1.
  - apply Qle_bool_iff in E1. right; left. now split.
  - apply not_true_iff_false in E1. rewrite Qle_bool_iff in E1.
    apply Qnot_le_lt in E1.
    destruct (Qle_bool (nearest q) (- 2 ^ 1024)) eqn:E2.
    + apply Qle_bool_iff in E2. right; right. now split.
    + apply not_true_iff_false in E2. rewrite Qle_bool_iff in E2.
      apply Qnot_le_lt in E2. left. repeat split; assumption.
Qed.

(** The rounded result stays below a double that bounds the exact one, ... *)
Lemma round_le q q' B :
  q <= q' -> nearest q' == B -> B < 2 ^ 1024 -> le (Float.round q) (Finite B).
Proof.
  intros Hq HB Hrange. pose proof (nearest_mono q q' Hq) as Hmono.
  destruct (round_cases q) as [[-> _] | [[-> H] | [-> _]]]; unfold le; cbn.
  - apply Qle_bool_iff. lra.
  - exfalso. lra.
  - reflexivity.
Qed.

(** ... and above a double that the exact one is not below. *)
Lemma round_ge q q' L :
  q' <= q -> nearest q' == L -> - 2 ^ 1024 < L -> le (Finite L) (Float.round q).
Proof.
  intros Hq HL Hrange. pose proof (nearest_mono q' q Hq) as Hmono.
  destruct (round_cases q) as [[-> _] | [[-> _] | [-> H]]]; unfold le; cbn.
  - apply Qle_bool_iff. lra.
  - reflexivity.
  - exfalso. lra.
Qed.

Lemma round_between q q1 q2 L B :
  q1 <= q <= q2 -> nearest q1 == L -> nearest q2 == B ->
  - 2 ^ 1024 < L -> B < 2 ^ 1024 ->
  exists v, Float.round q = Finite v /\ L <= v <= B.
Proof.
  intros [HL HB] HnL HnB HrL HrB.
  pose proof (nearest_mono q1 q HL). pose proof (nearest_mono q q2 HB).
  destruct (round_cases q) as [[-> _] | [[-> H1] | [-> H1]]].
  - eexists. split; [reflexivity | lra].
  - exfalso. lra.
  - exfalso. lra.
Qed.

Lemma round_not_nan q : Float.round q <> NaN.
Proof. destruct (round_cases q) as [[-> _] | [[-> _] | [-> _]]]; discriminate. Qed.

Lemma le_finite x B :
  le x (Finite B) <-> (exists v, x = Finite v /\ v <= B) \/ x = Infinity true.
Proof.
  unfold le. destruct x as [v | [|] |]; cbn.
  - rewrite Qle_bool_iff. split.
    + intros H. left. eauto.
    + intros [(w & [= ->] & H) | [=]]. exact H.
  - split; [now right | reflexivity].
  - split; [discriminate | intros [(w & [=] & _) | [=]]].
  - split; [discriminate | intros [(w & [=] & _) | [=]]].
Qed.

Lemma finite_le x L :
  le (Finite L) x <-> (exists v, x = Finite v /\ L <= v) \/ x = Infinity false.
Proof.
  unfold le. destruct x as [v | [|] |]; cbn.
  - rewrite Qle_bool_iff. split.
    + intros H. left. eauto.
    + intros [(w & [= ->] & H) | [=]]. exact H.
  - split; [discriminate | intros [(w & [=] & _) | [=]]].
  - split; [now right | reflexivity].
  - split; [discriminate | intros [(w & [=] & _) | [=]]].
Qed.

Lemma ltb_lt (a b : Q) : ltb (Finite a) (Finite b) = true <-> a < b.
Proof.
  cbn. rewrite negb_true_iff, <- not_true_iff_false, Qle_bool_iff.
  split; [apply Qnot_le_lt | apply Qlt_not_le].
Qed.

Lemma ltb_ge (a b : Q) : ltb (Finite a) (Finite b) = false <-> b <= a.
Proof. cbn. rewrite negb_false_iff. apply Qle_bool_iff. Qed.

(** [min(x, n)] of a number that is not NaN is at most [n]. *)
Lemma min_le x (n : Z) : is_nan x = false -> le (Py.min x n) (exact n).
Proof.
  intros Hnan. unfold Py.min, exact.
  destruct x as [v | [|] |]; try discriminate; cbn -[le].
  - destruct (negb (Qle_bool v (inject_Z n))) eqn:E; unfold le; cbn.
    + apply Qle_bool_iff. lra.
    + now apply negb_false_iff in E.
  - reflexivity.
  - unfold le. cbn. apply Qle_bool_iff. lra.
Qed.

(** [min] keeps a lower bound that the cap satisfies too. *)
Lemma min_ge x (n : Z) L :
  le (Finite L) x -> L <= inject_Z n -> le (Finite L) (Py.min x n).
Proof.
  intros Hx Hn. unfold Py.min.
  destruct (ltb (exact n) x); [| exact Hx].
  unfold le, exact. cbn. now apply Qle_bool_iff.
Qed.

End Doubles.

(** ** The score calculator *)

Section Score.

Implicit Types participation attentiveness level : string.
Implicit Types present class_size : Z.
Implicit Types ratio x : float.

(** The two weights as doubles. *)
Lemma weight_04 :
  Float.round 0.4 = Finite (3602879701896397 # 9007199254740992).
Proof. vm_compute. reflexivity. Qed.

Lemma weight_02 :
  Float.round 0.2 = Finite (3602879701896397 # 18014398509481984).
Proof. vm_compute. reflexivity. Qed.

(** [CEI_LEVEL_SCORES.get(level, 0)] is the specification's mapping. *)
Lemma get_level_scores level :
  get CEI_LEVEL_SCORES level 0%Z = level_points level.
Proof.
  unfold get, CEI_LEVEL_SCORES, level_points.
  repeat case_decide; simplify_map_eq; reflexivity.
Qed.

Lemma level_points_range level : (0 <= level_points level <= 40)%Z.
Proof. unfold level_points. repeat case_decide; lia. Qed.

(** The level scores convert to doubles without loss. *)
Lemma float_of_level level :
  float_of_int (level_points level) = Ok (exact (level_points level)).
Proof. unfold level_points. repeat case_decide; vm_compute; reflexivity. Qed.

(** Past the guard, [compute_cei] evaluates the specification's formula
    in double arithmetic, and raises where that raises. *)
Lemma compute_cei_eq participation attentiveness present class_size :
  (0 < class_size)%Z ->
  compute_cei participation attentiveness present class_size
  = score_formula participation attentiveness present class_size.
Proof.
  intros Hcs. unfold compute_cei, score_formula, presence_score.
  destruct (Z.leb_spec class_size 0) as [| _]; [lia |].
  destruct (truediv present class_size) as [ratio | e]; [| reflexivity].
  rewrite !get_level_scores. cbn -[Py.round level_points Float.round mul add Py.min].
  unfold mul_int. rewrite !float_of_level. reflexivity.
Qed.

(** At or below the guard, [compute_cei] returns 0 at once. *)
Lemma compute_cei_guard participation attentiveness present class_size :
  (class_size <= 0)%Z ->
  compute_cei participation attentiveness present class_size = Ok (exact 0).
Proof.
  intros Hcs. unfold compute_cei.
  destruct (Z.leb_spec class_size 0) as [_|]; [reflexivity | lia].
Qed.

(** The quotient of the division is a double or raises. *)
Lemma truediv_cases present class_size :
  (0 < class_size)%Z ->
  truediv present class_size = Raise OverflowError
  \/ exists r,
       truediv present class_size = Ok (Finite r)
       /\ ((0 <= present)%Z -> 0 <= r)
       /\ ((present < 0)%Z -> r <= 0).
Proof.
  intros Hcs. unfold truediv.
  destruct (Z.eqb_spec class_size 0) as [| _]; [lia |].
  assert (0 < inject_Z class_size) as Hq
    by (change 0 with (inject_Z 0); now rewrite <- Zlt_Qlt).
  destruct (round_cases (inject_Z present / inject_Z class_size))
    as [[-> _] | [[-> _] | [-> _]]]; cbn; [| now left | now left].
  right. eexists. split; [reflexivity |]. split; intros Hp.
  - apply nearest_nonneg. apply Qle_shift_div_l; [exact Hq |].
    rewrite Qmult_0_l. change 0 with (inject_Z 0). rewrite <- Zle_Qle. lia.
  - apply nearest_nonpos. apply Qle_shift_div_r; [exact Hq |].
    rewrite Qmult_0_l. change 0 with (inject_Z 0). rewrite <- Zle_Qle. lia.
Qed.

(** A quotient of at most [2^1023] in size is in range. *)
Lemma truediv_in_range present class_size :
  (0 < class_size)%Z -> (Z.abs present <= 2 ^ 1023)%Z ->
  exists r, truediv present class_size = Ok (Finite r).
Proof.
  intros Hcs Hp. unfold truediv.
  destruct (Z.eqb_spec class_size 0) as [| _]; [lia |].
  assert (1 <= inject_Z class_size) as Hq
    by (change 1 with (inject_Z 1); rewrite <- Zle_Qle; lia).
  assert (- inject_Z (2 ^ 1023) <= inject_Z present <= inject_Z (2 ^ 1023))
    as [Hlo Hhi].
  { rewrite <- inject_Z_opp, <- !Zle_Qle. lia. }
  assert (0 <= inject_Z (2 ^ 1023)) as Hpos by (vm_compute; discriminate).
  set (B := inject_Z (2 ^ 1023)) in *.
  destruct (round_between (inject_Z present / inject_Z class_size)
              (- B) B (- B) B) as (v & -> & _).
  - split.
    + apply Qle_shift_div_l; [lra |]. nra.
    + apply Qle_shift_div_r; [lra |]. nra.
  - vm_compute. reflexivity.
  - vm_compute. reflexivity.
  - vm_compute. reflexivity.
  - vm_compute. reflexivity.
  - cbn. eauto.
Qed.

(** The presence component: at most 40, and not negative for a ratio
    that is not. *)
Lemma presence_cases r :
  (exists p,
      presence_component (Finite r) = Finite p
      /\ - 2 ^ 1024 < p <= 40 /\ (0 <= r -> 0 <= p))
  \/ (presence_component (Finite r) = Infinity true /\ r < 0).
Proof.
  unfold presence_component, Py.min, exact. cbn [mul].
  destruct (round_cases (r * inject_Z 40)) as [[-> [Hlo Hhi]] | [[-> _] | [-> Hinf]]].
  - left. destruct (ltb (Finite (inject_Z 40)) (Finite (nearest (r * inject_Z 40))))
      eqn:E.
    + exists (inject_Z 40). split; [reflexivity |].
      split; [split; [reflexivity | discriminate] | discriminate].
    + apply ltb_ge in E. eexists. split; [reflexivity |].
      split; [split; [exact Hlo | exact E] |].
      intros Hr. apply nearest_nonneg.
      change (inject_Z 40) with 40. lra.
  - left. exists (inject_Z 40). split; [reflexivity |].
    split; [split; [reflexivity | discriminate] | discriminate].
  - right. split; [reflexivity |].
    destruct (Qlt_le_dec r 0) as [| Hr]; [assumption |]. exfalso.
    assert (0 <= nearest (r * inject_Z 40)) as H0.
    { apply nearest_nonneg. change (inject_Z 40) with 40. lra. }
    assert (- 2 ^ 1024 < 0) by reflexivity. lra.
Qed.

(** The weighted presence term. *)
Lemma presence_term p :
  - 2 ^ 1024 < p <= 40 ->
  exists v,
    mul (Float.round 0.2) (Finite p) = Finite v
    /\ - 2 ^ 1023 <= v <= 8 /\ (0 <= p -> 0 <= v).
Proof.
  intros [Hlo Hhi]. rewrite weight_02. cbn [mul].
  set (w := 3602879701896397 # 18014398509481984).
  assert (0 < w) as Hw by reflexivity.
  destruct (round_between (w * p) (w * - 2 ^ 1024) (w * 40)
              (- (3602879701896397 * 2 ^ 970)) 8) as (v & Hv & Hv1 & Hv2).
  - split; nra.
  - vm_compute. reflexivity.
  - vm_compute. reflexivity.
  - vm_compute. reflexivity.
  - vm_compute. reflexivity.
  - exists v. split; [exact Hv |]. split.
    + split; [| exact Hv2].
      apply Qle_trans with (- (3602879701896397 * 2 ^ 970)); [| exact Hv1].
      vm_compute. discriminate.
    + intros Hp. destruct (round_cases (w * p)) as [[Hr _] | [[Hr _] | [Hr _]]];
        rewrite Hr in Hv; try discriminate.
      injection Hv as <-. apply nearest_nonneg. nra.
Qed.

(** A weighted level score. *)
Lemma level_term level :
  exists v,
    mul (Float.round 0.4) (exact (level_points level)) = Finite v
    /\ 0 <= v <= 16.
Proof.
  rewrite weight_04. unfold exact. cbn [mul].
  set (w := 3602879701896397 # 9007199254740992).
  assert (0 < w) as Hw by reflexivity.
  pose proof (level_points_range level) as [H0 H40].
  rewrite Zle_Qle in H0, H40.
  change (inject_Z 0) with 0 in H0. change (inject_Z 40) with 40 in H40.
  apply (round_between _ (w * 0) (w * 40)).
  - split; nra.
  - vm_compute. reflexivity.
  - vm_compute. reflexivity.
  - reflexivity.
  - reflexivity.
Qed.

(** The weighted sum of a finite ratio: a double of at most 40, not
    negative for a ratio that is not, or minus infinity. *)
Lemma weighted_sum_cases participation attentiveness r :
  (exists s,
      weighted_sum participation attentiveness (Finite r) = Finite s
      /\ - 2 ^ 1023 <= s <= 40 /\ (0 <= r -> 0 <= s))
  \/ (weighted_sum participation attentiveness (Finite r) = Infinity true
      /\ r < 0).
Proof.
  unfold weighted_sum.
  destruct (level_term participation) as (a & -> & Ha).
  destruct (level_term attentiveness) as (b & -> & Hb).
  cbn [add].
  destruct (round_between (a + b) 0 32 0 32) as (c & -> & Hc);
    [lra | reflexivity | vm_compute; reflexivity | reflexivity | reflexivity |].
  destruct (presence_cases r) as [(p & -> & Hp & Hp0) | [-> Hr]].
  - destruct (presence_term p Hp) as (v & -> & Hv & Hv0). cbn [add]. left.
    destruct (round_between (c + v) (- 2 ^ 1023) 40 (- 2 ^ 1023) 40)
      as (s & Hs & Hs1 & Hs2);
      [lra | vm_compute; reflexivity | vm_compute; reflexivity
       | reflexivity | reflexivity |].
    exists s. split; [exact Hs |]. split; [lra |].
    intros Hr. specialize (Hv0 (Hp0 Hr)).
    destruct (round_cases (c + v)) as [[H _] | [[H _] | [H _]]];
      rewrite H in Hs; try discriminate.
    injection Hs as <-. apply nearest_nonneg. lra.
  - right. split; [| exact Hr]. rewrite weight_02. reflexivity.
Qed.

(** [round(x, 2)] keeps a double between integers that are doubles. *)
Lemma py_round_between s (L B : Z) :
  inject_Z L <= s <= inject_Z B ->
  nearest (inject_Z L) == inject_Z L -> nearest (inject_Z B) == inject_Z B ->
  - 2 ^ 1024 < inject_Z L -> inject_Z B < 2 ^ 1024 ->
  exists z, Py.round (Finite s) 2 = Ok (Finite z) /\ inject_Z L <= z <= inject_Z B.
Proof.
  intros [HL HB] HnL HnB HrL HrB. unfold Py.round.
  change (Z.to_pos (10 ^ Z.of_nat 2)) with 100%positive.
  change (inject_Z (Z.pos 100)) with 100.
  set (k := round_half_even (s * 100)).
  assert (L * 100 <= k <= B * 100)%Z as [Hk1 Hk2].
  { split; [apply round_half_even_ge | apply round_half_even_le];
      rewrite inject_Z_mult; change (inject_Z 100) with 100; lra. }
  destruct (round_between (k # 100) (inject_Z L) (inject_Z B)
              (inject_Z L) (inject_Z B)) as (z & -> & Hz); trivial.
  - unfold Qle. cbn. lia.
  - cbn. eauto.
Qed.

End Score.


(** ** Outcomes of the score calculator *)

Section Outcome.

Implicit Types participation attentiveness level : string.
Implicit Types present class_size : Z.
Implicit Types ratio x score : float.

Lemma checked_ok x y : checked x = Ok y -> x = y.
Proof. destruct x; cbn; congruence. Qed.

(** [round(x, 2)] is the double nearest to a number of two decimals that
    is within half a hundredth of [x]. *)
Lemma py_round_two_decimals s score :
  Py.round (Finite s) 2 = Ok score ->
  exists k : Z,
    score = Float.round (k # 100) /\ - (1 # 200) <= (k # 100) - s <= 1 # 200.
Proof.
  unfold Py.round. change (Z.to_pos (10 ^ Z.of_nat 2)) with 100%positive.
  intros H. apply checked_ok in H.
  exists (round_half_even (s * inject_Z (Z.pos 100))). split; [now symmetry |].
  pose proof (round_half_even_error (s * inject_Z (Z.pos 100))) as [H1 H2].
  set (k := round_half_even (s * inject_Z (Z.pos 100))) in *.
  assert ((k # 100) == inject_Z k / 100) as ->.
  { unfold Qeq, Qdiv, Qmult, Qinv, inject_Z. cbn. lia. }
  change (inject_Z (Z.pos 100)) with 100 in *.
  unfold Qdiv. change (/ 100) with (1 # 100). lra.
Qed.

(** Past the guard, the formula raises where the division does, and
    otherwise gives a score of at most 40 that is not negative for a
    present count that is not. *)
Lemma score_formula_cases participation attentiveness present class_size :
  (0 < class_size)%Z ->
  (truediv present class_size = Raise OverflowError
   /\ score_formula participation attentiveness present class_size
      = Raise OverflowError)
  \/ (exists ratio score,
        truediv present class_size = Ok ratio
        /\ score_formula participation attentiveness present class_size
           = Ok score
        /\ le score (exact 40)
        /\ ((0 <= present)%Z -> le (exact 0) score)).
Proof.
  intros Hcs. unfold score_formula.
  destruct (truediv_cases present class_size Hcs) as [-> | (r & -> & Hr0 & Hr1)];
    [now left | right].
  exists (Finite r). cbn -[Py.round weighted_sum].
  destruct (weighted_sum_cases participation attentiveness r)
    as [(s & -> & [Hs1 Hs2] & Hs0) | [-> Hneg]].
  - destruct (Qlt_le_dec r 0) as [Hr | Hr].
    + destruct (py_round_between s (- 2 ^ 1023) 40) as (z & -> & Hz1 & Hz2).
      * split; [| exact Hs2].
        apply Qle_trans with (- 2 ^ 1023); [| exact Hs1].
        vm_compute. discriminate.
      * vm_compute. reflexivity.
      * vm_compute. reflexivity.
      * vm_compute. reflexivity.
      * reflexivity.
      * eexists. split; [reflexivity |]. split; [reflexivity |]. split.
        -- unfold le, exact. cbn. now apply Qle_bool_iff.
        -- intros Hp. specialize (Hr0 Hp). lra.
    + destruct (py_round_between s 0 40) as (z & -> & Hz1 & Hz2).
      * split; [exact (Hs0 Hr) | exact Hs2].
      * reflexivity.
      * vm_compute. reflexivity.
      * reflexivity.
      * reflexivity.
      * eexists. split; [reflexivity |]. split; [reflexivity |].
        unfold le, exact. cbn. split; [| intros _]; now apply Qle_bool_iff.
  - exists (Infinity true). split; [reflexivity |]. split; [reflexivity |].
    split; [reflexivity |]. intros Hp. specialize (Hr0 Hp). lra.
Qed.

(** [compute_cei] raises nothing but the [OverflowError] of its
    division. *)
Lemma compute_cei_raises participation attentiveness present class_size e :
  compute_cei participation attentiveness present class_size = Raise e ->
  e = OverflowError /\ (0 < class_size)%Z
  /\ truediv present class_size = Raise OverflowError.
Proof.
  intros H. destruct (Z.le_gt_cases class_size 0) as [Hcs | Hcs].
  - rewrite compute_cei_guard in H by exact Hcs. discriminate.
  - rewrite compute_cei_eq in H by lia.
    destruct (score_formula_cases participation attentiveness present
                class_size) as [[Hdiv Hrun] | (r & s & _ & Hrun & _)]; [lia | |];
      rewrite Hrun in H; [| discriminate].
    injection H as <-. repeat split; [lia | exact Hdiv].
Qed.

(** It returns when the class size is not positive, and when the present
    count is at most [2^1023] in size. *)
Lemma compute_cei_returns participation attentiveness present class_size :
  (class_size <= 0)%Z \/ (Z.abs present <= 2 ^ 1023)%Z ->
  exists score,
    compute_cei participation attentiveness present class_size = Ok score.
Proof.
  intros H. destruct (Z.le_gt_cases class_size 0) as [Hcs | Hcs].
  - rewrite compute_cei_guard by exact Hcs. eauto.
  - destruct H as [H | H]; [lia |].
    destruct (truediv_in_range present class_size) as [r Hr]; [lia | exact H |].
    rewrite compute_cei_eq by lia.
    destruct (score_formula_cases participation attentiveness present
                class_size) as [[Hdiv _] | (r' & s & _ & Hrun & _)]; [lia | |].
    + rewrite Hr in Hdiv. discriminate.
    + eauto.
Qed.

(** Whatever it returns is at most 40, ... *)
Lemma compute_cei_le participation attentiveness present class_size score :
  compute_cei participation attentiveness present class_size = Ok score ->
  le score (exact 40).
Proof.
  intros H. destruct (Z.le_gt_cases class_size 0) as [Hcs | Hcs].
  - rewrite compute_cei_guard in H by exact Hcs. injection H as <-. reflexivity.
  - rewrite compute_cei_eq in H by lia.
    destruct (score_formula_cases participation attentiveness present
                class_size) as [[_ Hrun] | (r & s & _ & Hrun & Hle & _)];
      [lia | |]; rewrite Hrun in H; [discriminate |].
    injection H as <-. exact Hle.
Qed.

(** ... and not negative when the present count is not. *)
Lemma compute_cei_ge participation attentiveness present class_size score :
  (0 <= present)%Z ->
  compute_cei participation attentiveness present class_size = Ok score ->
  le (exact 0) score.
Proof.
  intros Hp H. destruct (Z.le_gt_cases class_size 0) as [Hcs | Hcs].
  - rewrite compute_cei_guard in H by exact Hcs. injection H as <-. reflexivity.
  - rewrite compute_cei_eq in H by lia.
    destruct (score_formula_cases participation attentiveness present
                class_size) as [[_ Hrun] | (r & s & _ & Hrun & _ & Hge)];
      [lia | |]; rewrite Hrun in H; [discriminate |].
    injection H as <-. exact (Hge Hp).
Qed.

End Outcome.

(** ** The trend interpreter *)

Ltac bands :=
  unfold le, lt, exact in *;
  cbn [interpret_avg ENGAGEMENT_RULES rule_min rule_max status message
       leb ltb exact andb negb] in *;
  repeat match goal with
    | H : context [Qle_bool ?a ?b] |- _ =>
        let E := fresh "E" in
        destruct (Qle_bool a b) eqn:E;
        [apply Qle_bool_iff in E
        | apply not_true_iff_false in E; rewrite Qle_bool_iff in E;
          apply Qnot_le_lt in E]
    | |- context [Qle_bool ?a ?b] =>
        let E := fresh "E" in
        destruct (Qle_bool a b) eqn:E;
        [apply Qle_bool_iff in E
        | apply not_true_iff_false in E; rewrite Qle_bool_iff in E;
          apply Qnot_le_lt in E]
    end;
  cbn [andb negb] in *; unfold inject_Z in *;
  try discriminate; try reflexivity; try (exfalso; lra).

Section Trend.

Implicit Types avg x : float.
Implicit Types series : Series.
Implicit Types mean : Series -> float.





Lemma interpret_avg_nan : interpret_avg NaN ENGAGEMENT_RULES = fallback.
Proof. reflexivity. Qed.

(** The loop with its fallback gives one of four answers. *)
Lemma interpret_avg_cases avg :
  interpret_avg avg ENGAGEMENT_RULES = green
  \/ interpret_avg avg ENGAGEMENT_RULES = yellow
  \/ interpret_avg avg ENGAGEMENT_RULES = red_low
  \/ interpret_avg avg ENGAGEMENT_RULES = fallback.
Proof.
  cbn [interpret_avg ENGAGEMENT_RULES rule_min rule_max status message].
  repeat match goal with
    | |- context [if ?b then _ else _] => destruct b
    end; auto.
Qed.


Lemma series_avg_nil mean : series_avg mean [] = exact 0.
Proof. reflexivity. Qed.

Lemma series_avg_mean mean series :
  series <> [] -> series_avg mean series = mean series.
Proof. destruct series; [congruence | reflexivity]. Qed.

End Trend.

(** ** Sums and means *)

Section Mean.

Implicit Types x acc : float.
Implicit Types series : Series.

Lemma filter_known series :
  Forall (fun x => is_nan x = false) series ->
  List.filter (fun x => negb (is_nan x)) series = series.
Proof.
  induction 1 as [| x series Hx _ IH]; [reflexivity |].
  cbn. rewrite Hx. cbn. now rewrite IH.
Qed.

Lemma le_not_nan x y : le x y -> is_nan x = false.
Proof. destruct x as [v | [|] |]; [reflexivity .. |]. discriminate. Qed.

Lemma ge_not_nan x y : le y x -> is_nan x = false.
Proof.
  destruct x as [v | [|] |]; [reflexivity .. |].
  destruct y as [w | [|] |]; discriminate.
Qed.

(** Adding a number of at most [b] to a sum of at most [a]. *)
Lemma add_le acc x (a b : Z) :
  (- 2 ^ 53 < a + b < 2 ^ 53)%Z ->
  le acc (exact a) -> le x (exact b) -> le (add acc x) (exact (a + b)).
Proof.
  intros Hab Hacc Hx. unfold exact in *.
  apply le_finite in Hacc as [(u & -> & Hu) | ->];
    apply le_finite in Hx as [(v & -> & Hv) | ->]; cbn [add]; try reflexivity.
  apply round_le with (q' := inject_Z (a + b)).
  - rewrite inject_Z_plus. lra.
  - now apply nearest_int.
  - apply Qlt_le_trans with (inject_Z (2 ^ 53)).
    + rewrite <- Zlt_Qlt. lia.
    + vm_compute. discriminate.
Qed.

Lemma add_ge acc x :
  le (exact 0) acc -> le (exact 0) x -> le (exact 0) (add acc x).
Proof.
  intros Hacc Hx. unfold exact in *.
  apply finite_le in Hacc as [(u & -> & Hu) | ->];
    apply finite_le in Hx as [(v & -> & Hv) | ->]; cbn [add]; try reflexivity.
  change (inject_Z 0) with 0 in *.
  apply round_ge with (q' := 0); [lra | reflexivity | reflexivity].
Qed.

Lemma div_count_le x (b : Z) (count : positive) :
  (- 2 ^ 53 < b < 2 ^ 53)%Z ->
  le x (exact (b * Z.pos count)) -> le (div_count x count) (exact b).
Proof.
  intros Hb Hx. unfold exact in *.
  apply le_finite in Hx as [(u & -> & Hu) | ->]; [| reflexivity].
  cbn [div_count]. apply round_le with (q' := inject_Z b).
  - apply Qle_shift_div_r; [reflexivity |].
    now rewrite <- inject_Z_mult.
  - now apply nearest_int.
  - apply Qlt_le_trans with (inject_Z (2 ^ 53)).
    + rewrite <- Zlt_Qlt. lia.
    + vm_compute. discriminate.
Qed.

Lemma div_count_ge x (count : positive) :
  le (exact 0) x -> le (exact 0) (div_count x count).
Proof.
  intros Hx. unfold exact in *.
  apply finite_le in Hx as [(u & -> & Hu) | ->]; [| reflexivity].
  cbn [div_count]. change (inject_Z 0) with 0 in *.
  apply round_ge with (q' := 0); [| reflexivity | reflexivity].
  apply Qle_shift_div_l; [reflexivity | lra].
Qed.

(** A sum of numbers of at most [b] each, in any order. *)
Lemma total_le (b : Z) (t : Pandas.summation) :
  (0 <= b)%Z ->
  (b * Z.of_nat (length (Pandas.entries t)) < 2 ^ 53)%Z ->
  Forall (fun x => le x (exact b)) (Pandas.entries t) ->
  le (Pandas.total t) (exact (b * Z.of_nat (length (Pandas.entries t)))).
Proof.
  intros Hb. induction t as [x | | l IHl r IHr]; cbn [Pandas.entries Pandas.total].
  - intros _ Hall. apply Forall_inv in Hall.
    now replace (b * Z.of_nat (length [x]))%Z with b by (cbn; lia).
  - intros _ _. now replace (b * Z.of_nat (length (@nil float)))%Z with 0%Z
      by (cbn; lia).
  - rewrite length_app, Nat2Z.inj_add, Z.mul_add_distr_l.
    intros Hlen Hall. apply Forall_app in Hall as [Hl Hr].
    apply add_le; [lia | apply IHl | apply IHr]; try assumption; lia.
Qed.

Lemma total_ge (t : Pandas.summation) :
  Forall (fun x => le (exact 0) x) (Pandas.entries t) ->
  le (exact 0) (Pandas.total t).
Proof.
  induction t as [x | | l IHl r IHr]; cbn [Pandas.entries Pandas.total].
  - intros Hall. now apply Forall_inv in Hall.
  - reflexivity.
  - intros Hall. apply Forall_app in Hall as [Hl Hr].
    apply add_ge; [apply IHl | apply IHr]; assumption.
Qed.

(** A mean of numbers of at most 40 is at most 40, as long as 40 times
    their count is a double. *)
Lemma mean_of_le_40 series m :
  Pandas.mean_of series m ->
  series <> [] -> (Z.of_nat (length series) < 2 ^ 47)%Z ->
  Forall (fun x => le x (exact 40)) series ->
  le m (exact 40).
Proof.
  intros (t & Hperm & ->) Hne Hlen Hall.
  pose proof (Permutation_length Hperm) as Hl.
  apply div_count_le; [lia |].
  replace (40 * Z.pos (Pos.of_nat (length series)))%Z
    with (40 * Z.of_nat (length (Pandas.entries t)))%Z.
  - apply total_le; [lia | lia |].
    rewrite Forall_forall in *. intros x Hx. apply Hall.
    now rewrite <- Hperm.
  - rewrite Hl. destruct series; [congruence | cbn [length]; lia].
Qed.

(** A mean of numbers that are not negative is not negative. *)
Lemma mean_of_ge_0 series m :
  Pandas.mean_of series m ->
  Forall (fun x => le (exact 0) x) series ->
  le (exact 0) m.
Proof.
  intros (t & Hperm & ->) Hall.
  apply div_count_ge, total_ge.
  rewrite Forall_forall in *. intros x Hx. apply Hall. now rewrite <- Hperm.
Qed.

(** The sum from left to right is one such order of additions. *)
Lemma left_to_right_spec series (t : Pandas.summation) :
  Pandas.entries (fold_left (fun t x => Pandas.Plus t (Pandas.Entry x)) series t)
  = Pandas.entries t ++ series
  /\ Pandas.total (fold_left (fun t x => Pandas.Plus t (Pandas.Entry x)) series t)
     = fold_left add series (Pandas.total t).
Proof.
  revert t. induction series as [| x series IH]; intros t; cbn [fold_left].
  - now rewrite app_nil_r.
  - destruct (IH (Pandas.Plus t (Pandas.Entry x))) as [-> ->].
    cbn [Pandas.entries Pandas.total]. now rewrite <- app_assoc.
Qed.

Lemma mean_mean_of series :
  series <> [] ->
  Forall (fun x => is_nan x = false) series ->
  Pandas.mean_of series (Pandas.mean series).
Proof.
  intros Hne Hall. exists (Pandas.left_to_right series).
  unfold Pandas.left_to_right.
  destruct (left_to_right_spec series Pandas.Zero) as [-> ->]. split.
  - reflexivity.
  - unfold Pandas.mean. rewrite (filter_known series Hall).
    destruct series; [congruence | reflexivity].
Qed.

(** So for the mean from left to right: *)
Lemma mean_le_40 series :
  series <> [] -> (Z.of_nat (length series) < 2 ^ 47)%Z ->
  Forall (fun x => le x (exact 40)) series ->
  le (Pandas.mean series) (exact 40).
Proof.
  intros Hne Hlen Hall. apply (mean_of_le_40 series); try assumption.
  apply mean_mean_of; [exact Hne |].
  eapply Forall_impl; [exact Hall | intros x; apply le_not_nan].
Qed.

Lemma mean_ge_0 series :
  series <> [] ->
  Forall (fun x => le (exact 0) x) series ->
  le (exact 0) (Pandas.mean series).
Proof.
  intros Hne Hall. apply (mean_of_ge_0 series); try assumption.
  apply mean_mean_of; [exact Hne |].
  eapply Forall_impl; [exact Hall | intros x; apply ge_not_nan].
Qed.

End Mean.

(** ** Series of computed scores *)

Section Computed.

Implicit Types series : Series.
Implicit Types mean : Series -> float.




End Computed.


(** ** The presence component *)

Section Presence.

Implicit Types present class_size : Z.
Implicit Types ratio x : float.

Lemma Qred_inject_Z (n : Z) : Qred (inject_Z n) = inject_Z n.
Proof.
  unfold Qred, inject_Z.
  pose proof (Z.ggcd_gcd n 1) as Hg.
  pose proof (Z.ggcd_correct_divisors n 1) as Hd.
  destruct (Z.ggcd n 1) as [g [a b]]. cbn in Hg, Hd.
  rewrite Z.gcd_1_r in Hg. subst g. destruct Hd as [Ha Hb].
  replace a with n by lia. replace b with 1%Z by lia. reflexivity.
Qed.

(** A rounded value that is an integer is that integer in lowest terms. *)
Lemma nearest_pos_integer a (n : Z) :
  nearest_pos a == inject_Z n -> nearest_pos a = inject_Z n.
Proof.
  unfold nearest_pos. cbn zeta. intros H.
  rewrite Qred_correct in H. apply Qred_complete in H. rewrite H.
  apply Qred_inject_Z.
Qed.

Lemma nearest_integer q (n : Z) :
  nearest q == inject_Z n -> nearest q = inject_Z n.
Proof.
  destruct (nearest_cases q) as [[_ ->] | [[_ ->] | [_ ->]]]; intros H.
  - assert (n = 0%Z) as ->; [| reflexivity].
    unfold Qeq in H. cbn in H. lia.
  - now apply nearest_pos_integer.
  - assert (nearest_pos (- q) == inject_Z (- n)) as H'
      by (rewrite inject_Z_opp; lra).
    apply nearest_pos_integer in H'. rewrite H'.
    unfold Qopp, inject_Z. cbn. now rewrite Z.opp_involutive.
Qed.

(** The presence term of the code is the presence component of the
    double quotient. *)
Lemma presence_score_eq present class_size :
  presence_score present class_size
  = (ratio ← truediv present class_size; mret (presence_component ratio)).
Proof.
  unfold presence_score.
  destruct (truediv present class_size) as [ratio | e]; reflexivity.
Qed.

(** A ratio of at least 1 gives a presence component of exactly 40. *)
Lemma presence_component_clamped r :
  1 <= r -> presence_component (Finite r) = exact 40.
Proof.
  intros Hr. unfold presence_component, Py.min, exact. cbn [mul].
  assert (40 <= nearest (r * inject_Z 40)) as Hge.
  { apply Qle_trans with (nearest 40); [vm_compute; discriminate |].
    apply nearest_mono. change (inject_Z 40) with 40. lra. }
  destruct (round_cases (r * inject_Z 40)) as [[-> _] | [[-> _] | [-> Hinf]]].
  - destruct (ltb (Finite (inject_Z 40)) (Finite (nearest (r * inject_Z 40))))
      eqn:E; [reflexivity |].
    apply ltb_ge in E. f_equal. apply nearest_integer.
    change (inject_Z 40) with 40 in *. lra.
  - reflexivity.
  - exfalso. assert (- 2 ^ 1024 < 0) by reflexivity. lra.
Qed.

(** When at least the whole class is present, the quotient is at least 1. *)
Lemma truediv_ge_1 present class_size r :
  (0 < class_size <= present)%Z ->
  truediv present class_size = Ok (Finite r) -> 1 <= r.
Proof.
  intros [Hcs Hp]. unfold truediv.
  destruct (Z.eqb_spec class_size 0) as [| _]; [lia |].
  intros H. apply checked_ok in H.
  destruct (round_cases (inject_Z present / inject_Z class_size))
    as [[Hr _] | [[Hr _] | [Hr _]]]; rewrite Hr in H; try discriminate.
  injection H as <-.
  apply Qle_trans with (nearest 1); [vm_compute; discriminate |].
  apply nearest_mono.
  assert (0 < inject_Z class_size) as Hq
    by (change 0 with (inject_Z 0); now rewrite <- Zlt_Qlt).
  apply Qle_shift_div_l; [exact Hq |]. rewrite Qmult_1_l.
  now rewrite <- Zle_Qle.
Qed.

(** The presence term: the division overflows, or the term is the
    presence component of the quotient, at most 40, and exactly 40 when
    at least the whole class is present. *)
Lemma presence_score_cases present class_size :
  (0 < class_size)%Z ->
  (truediv present class_size = Raise OverflowError
   /\ presence_score present class_size = Raise OverflowError)
  \/ (exists ratio presence,
        truediv present class_size = Ok ratio
        /\ presence_score present class_size = Ok presence
        /\ presence = Py.min (mul ratio (exact 40)) 40
        /\ le presence (exact 40)
        /\ ((class_size <= present)%Z -> presence = exact 40)).
Proof.
  intros Hcs. rewrite presence_score_eq.
  destruct (truediv_cases present class_size Hcs) as [-> | (r & Hdiv & _)];
    [now left | right].
  rewrite Hdiv. exists (Finite r), (presence_component (Finite r)).
  split; [reflexivity |]. split; [reflexivity |]. split; [reflexivity |].
  split.
  - destruct (presence_cases r) as [(p & -> & [_ Hp] & _) | [-> _]];
      [| reflexivity].
    unfold le, exact. cbn. now apply Qle_bool_iff.
  - intros Hp. apply presence_component_clamped.
    apply (truediv_ge_1 present class_size); [lia | exact Hdiv].
Qed.

End Presence.


(** ** The order of doubles *)

Section Order.

Implicit Types x y z : float.
Implicit Types q : Q.

Lemma le_cases x y :
  le x y <->
  (x = Infinity true /\ is_nan y = false)
  \/ (y = Infinity false /\ is_nan x = false)
  \/ (exists a b, x = Finite a /\ y = Finite b /\ a <= b).
Proof.
  unfold le. destruct x as [a | [|] |], y as [b | [|] |]; cbn;
    try rewrite Qle_bool_iff;
    (split;
     [intros H
     | intros [[H1 H2] | [[H1 H2] | (a' & b' & H1 & H2 & H3)]]]);
    try discriminate; try reflexivity; try congruence; eauto 10.
Qed.

Lemma le_refl x : is_nan x = false -> le x x.
Proof.
  destruct x as [a | [|] |]; intros H; try discriminate; try reflexivity.
  unfold le. cbn. apply Qle_bool_iff. lra.
Qed.

Lemma le_trans x y z : le x y -> le y z -> le x z.
Proof.
  unfold le. destruct x as [a | [|] |], y as [b | [|] |], z as [c | [|] |];
    cbn; try rewrite !Qle_bool_iff; intros H1 H2;
    try discriminate; try reflexivity.
  lra.
Qed.

Lemma round_finite_or_infinite q : is_nan (Float.round q) = false.
Proof.
  destruct (round_cases q) as [[-> _] | [[-> _] | [-> _]]]; reflexivity.
Qed.

(** Rounding to a double is monotone. *)
Lemma round_mono q1 q2 : q1 <= q2 -> le (Float.round q1) (Float.round q2).
Proof.
  intros H. pose proof (nearest_mono q1 q2 H) as Hn.
  assert (- 2 ^ 1024 < 2 ^ 1024) as Hrange by reflexivity.
  destruct (round_cases q1) as [[-> [? ?]] | [[-> ?] | [-> ?]]];
    destruct (round_cases q2) as [[-> [? ?]] | [[-> ?] | [-> ?]]];
    unfold le; cbn; try rewrite Qle_bool_iff;
    try reflexivity; try assumption; exfalso; lra.
Qed.

(** The binade of a positive rational does not depend on how the
    rational is written. *)
Lemma ilog2_comp a b : 0 < a -> a == b -> ilog2 a = ilog2 b.
Proof.
  intros Ha Hab. assert (0 < b) as Hb by lra.
  assert (a <= b) as H1 by lra. assert (b <= a) as H2 by lra.
  pose proof (ilog2_mono a b Ha H1). pose proof (ilog2_mono b a Hb H2). lia.
Qed.

Lemma nearest_pos_comp a b : 0 < a -> a == b -> nearest_pos a = nearest_pos b.
Proof.
  intros Ha Hab. unfold nearest_pos, ulp_exponent.
  rewrite (ilog2_comp a b Ha Hab). cbn zeta.
  set (e := Z.max (ilog2 b - 52) (-1074)).
  rewrite (round_half_even_comp (a / 2 ^ e) (b / 2 ^ e)); [reflexivity |].
  now rewrite Hab.
Qed.

Lemma nearest_comp q1 q2 : q1 == q2 -> nearest q1 = nearest q2.
Proof.
  intros H.
  destruct (nearest_cases q1) as [[H1 ->] | [[H1 ->] | [H1 ->]]];
    destruct (nearest_cases q2) as [[H2 ->] | [[H2 ->] | [H2 ->]]];
    try reflexivity; try (exfalso; lra).
  - now apply nearest_pos_comp.
  - f_equal. apply nearest_pos_comp; lra.
Qed.

Lemma round_comp q1 q2 : q1 == q2 -> Float.round q1 = Float.round q2.
Proof. intros H. unfold Float.round. now rewrite (nearest_comp q1 q2 H). Qed.

(** Addition of doubles is commutative. *)
Lemma add_comm x y : add x y = add y x.
Proof.
  destruct x as [a | [|] |], y as [b | [|] |]; cbn; try reflexivity.
  apply round_comp. ring.
Qed.

(** Adding to a finite number is monotone in both arguments. *)
Lemma add_finite_mono (c1 c2 : Q) x y :
  c1 <= c2 -> le x y -> le (add (Finite c1) x) (add (Finite c2) y).
Proof.
  intros Hc Hxy.
  apply le_cases in Hxy as [[-> Hy] | [[-> Hx] | (a & b & -> & -> & Hab)]].
  - destruct y as [b | [|] |]; try discriminate; cbn [add]; try reflexivity.
    apply le_cases. left. split; [reflexivity | apply round_finite_or_infinite].
  - destruct x as [a | [|] |]; try discriminate; cbn [add]; try reflexivity.
    apply le_cases. right; left.
    split; [reflexivity | apply round_finite_or_infinite].
  - cbn [add]. apply round_mono. lra.
Qed.

(** Multiplying by a positive number is monotone. *)
Lemma mul_pos_mono (w : Q) x y :
  0 < w -> le x y -> le (mul (Finite w) x) (mul (Finite w) y).
Proof.
  intros Hw Hxy.
  assert (Qeq_bool w 0 = false) as Hw0.
  { apply not_true_iff_false. rewrite Qeq_bool_iff. lra. }
  assert (sign w = false) as Hsign.
  { unfold sign. apply Z.ltb_ge. pose proof (Qnum_pos w Hw). lia. }
  assert (forall s, mul (Finite w) (Infinity s) = Infinity s) as Hinf.
  { intros s. cbn. rewrite Hw0, Hsign. now destruct s. }
  apply le_cases in Hxy as [[-> Hy] | [[-> Hx] | (a & b & -> & -> & Hab)]].
  - rewrite Hinf. destruct y as [b | [|] |]; try discriminate.
    + cbn [mul]. apply le_cases. left.
      split; [reflexivity | apply round_finite_or_infinite].
    + now rewrite Hinf.
    + now rewrite Hinf.
  - rewrite Hinf. destruct x as [a | [|] |]; try discriminate.
    + cbn [mul]. apply le_cases. right; left.
      split; [reflexivity | apply round_finite_or_infinite].
    + now rewrite Hinf.
    + now rewrite Hinf.
  - cbn [mul]. apply round_mono. nra.
Qed.

Lemma mul_comm x y : mul x y = mul y x.
Proof.
  destruct x as [a | [|] |], y as [b | [|] |]; cbn; try reflexivity.
  apply round_comp. ring.
Qed.

(** [min(x, n)] is monotone in [x]. *)
Lemma min_mono x y (n : Z) : le x y -> le (Py.min x n) (Py.min y n).
Proof.
  intros Hxy.
  apply le_cases in Hxy as [[-> Hy] | [[-> Hx] | (a & b & -> & -> & Hab)]].
  - apply le_cases. left. split; [reflexivity |].
    unfold Py.min. now destruct (ltb (exact n) y).
  - now apply min_le.
  - unfold Py.min, exact. cbn.
    destruct (Qle_bool a (inject_Z n)) eqn:Ea;
      destruct (Qle_bool b (inject_Z n)) eqn:Eb; cbn; unfold le; cbn.
    + now apply Qle_bool_iff.
    + exact Ea.
    + apply not_true_iff_false in Ea. rewrite Qle_bool_iff in Ea.
      apply Qle_bool_iff in Eb. exfalso. lra.
    + apply Qle_bool_iff. lra.
Qed.

(** [round(x, 2)] is monotone. *)
Lemma py_round_mono x y x' y' :
  le x y -> Py.round x 2 = Ok x' -> Py.round y 2 = Ok y' -> le x' y'.
Proof.
  intros Hxy Hx Hy.
  assert (is_nan x' = false) as Hx'.
  { destruct x as [a | s |]; cbn in Hx.
    - apply checked_ok in Hx. subst x'. apply round_finite_or_infinite.
    - now injection Hx as <-.
    - apply le_cases in Hxy as [[[=] _] | [[_ [=]] | (a & b & [=] & _)]]. }
  assert (is_nan y' = false) as Hy'.
  { destruct y as [a | s |]; cbn in Hy.
    - apply checked_ok in Hy. subst y'. apply round_finite_or_infinite.
    - now injection Hy as <-.
    - apply le_cases in Hxy as [[_ [=]] | [[[=] _] | (a & b & _ & [=] & _)]]. }
  apply le_cases in Hxy as [[-> _] | [[-> _] | (a & b & -> & -> & Hab)]].
  - injection Hx as <-. apply le_cases. left. now split.
  - injection Hy as <-. apply le_cases. right; left. now split.
  - unfold Py.round in Hx, Hy.
    change (Z.to_pos (10 ^ Z.of_nat 2)) with 100%positive in *.
    apply checked_ok in Hx, Hy. subst x' y'. apply round_mono.
    assert (round_half_even (a * inject_Z (Z.pos 100))
            <= round_half_even (b * inject_Z (Z.pos 100)))%Z as Hk.
    { apply round_half_even_mono. change (inject_Z (Z.pos 100)) with 100. lra. }
    unfold Qle. cbn. lia.
Qed.

End Order.


(** ** Monotonicity of the score *)

Section Monotone.

Implicit Types participation attentiveness level : string.
Implicit Types present class_size : Z.
Implicit Types ratio score : float.

Lemma truediv_mono present1 present2 class_size ratio1 ratio2 :
  (0 < class_size)%Z -> (present1 <= present2)%Z ->
  truediv present1 class_size = Ok ratio1 ->
  truediv present2 class_size = Ok ratio2 ->
  le ratio1 ratio2.
Proof.
  intros Hcs Hp. unfold truediv.
  destruct (Z.eqb_spec class_size 0) as [| _]; [lia |].
  intros H1 H2. apply checked_ok in H1, H2. subst ratio1 ratio2.
  apply round_mono.
  assert (0 < inject_Z class_size) as Hq
    by (change 0 with (inject_Z 0); now rewrite <- Zlt_Qlt).
  apply Qmult_le_compat_r.
  - now rewrite <- Zle_Qle.
  - apply Qlt_le_weak, Qinv_lt_0_compat, Hq.
Qed.

(** A quotient of a part by the whole is a double between 0 and 1. *)
Lemma truediv_fraction present class_size :
  (0 < class_size)%Z -> (0 <= present <= class_size)%Z ->
  exists r, truediv present class_size = Ok (Finite r) /\ 0 <= r <= 1.
Proof.
  intros Hcs [Hp0 Hp1]. unfold truediv.
  destruct (Z.eqb_spec class_size 0) as [| _]; [lia |].
  assert (0 < inject_Z class_size) as Hq
    by (change 0 with (inject_Z 0); now rewrite <- Zlt_Qlt).
  destruct (round_between (inject_Z present / inject_Z class_size) 0 1 0 1)
    as (r & -> & Hr).
  - split.
    + apply Qle_shift_div_l; [exact Hq |]. rewrite Qmult_0_l.
      change 0 with (inject_Z 0). now rewrite <- Zle_Qle.
    + apply Qle_shift_div_r; [exact Hq |]. rewrite Qmult_1_l.
      now rewrite <- Zle_Qle.
  - reflexivity.
  - vm_compute. reflexivity.
  - reflexivity.
  - reflexivity.
  - cbn. eauto.
Qed.

Lemma truediv_zero class_size :
  (0 < class_size)%Z -> truediv 0 class_size = Ok (Finite 0).
Proof.
  intros Hcs. unfold truediv.
  destruct (Z.eqb_spec class_size 0) as [| _]; [lia |].
  rewrite (round_comp (inject_Z 0 / inject_Z class_size) 0); [reflexivity |].
  unfold Qdiv. change (inject_Z 0) with 0. ring.
Qed.

Lemma truediv_whole class_size :
  (0 < class_size)%Z -> truediv class_size class_size = Ok (Finite 1).
Proof.
  intros Hcs. unfold truediv.
  destruct (Z.eqb_spec class_size 0) as [| _]; [lia |].
  rewrite (round_comp (inject_Z class_size / inject_Z class_size) 1);
    [vm_compute; reflexivity |].
  field. intros H. apply (inject_Z_injective class_size 0) in H. lia.
Qed.

Lemma presence_component_mono ratio1 ratio2 :
  le ratio1 ratio2 ->
  le (presence_component ratio1) (presence_component ratio2).
Proof.
  intros H. unfold presence_component. apply min_mono.
  rewrite (mul_comm ratio1), (mul_comm ratio2).
  now apply mul_pos_mono.
Qed.

Lemma exact_le (m n : Z) : (m <= n)%Z -> le (exact m) (exact n).
Proof. intros H. unfold le, exact. cbn. apply Qle_bool_iff. now rewrite <- Zle_Qle. Qed.

(** The argument of [round] grows with the points of either level and
    with the ratio. *)
Lemma weighted_sum_mono participation1 participation2
    attentiveness1 attentiveness2 ratio1 ratio2 :
  (level_points participation1 <= level_points participation2)%Z ->
  (level_points attentiveness1 <= level_points attentiveness2)%Z ->
  le ratio1 ratio2 ->
  le (weighted_sum participation1 attentiveness1 ratio1)
     (weighted_sum participation2 attentiveness2 ratio2).
Proof.
  intros Hp Ha Hr. unfold weighted_sum.
  assert (0 < 3602879701896397 # 9007199254740992) as Hw4 by reflexivity.
  assert (0 < 3602879701896397 # 18014398509481984) as Hw2 by reflexivity.
  pose proof (mul_pos_mono _ _ _ Hw4 (exact_le _ _ Hp)) as Hp'.
  pose proof (mul_pos_mono _ _ _ Hw4 (exact_le _ _ Ha)) as Ha'.
  pose proof (mul_pos_mono _ _ _ Hw2 (presence_component_mono _ _ Hr)) as Hr'.
  rewrite <- weight_04 in Hp', Ha'. rewrite <- weight_02 in Hr'.
  destruct (level_term participation1) as (p1 & Ep1 & Hp1).
  destruct (level_term participation2) as (p2 & Ep2 & Hp2).
  destruct (level_term attentiveness1) as (a1 & Ea1 & Ha1).
  destruct (level_term attentiveness2) as (a2 & Ea2 & Ha2).
  rewrite Ep1, Ep2 in Hp' |- *. rewrite Ea1, Ea2 in Ha' |- *.
  pose proof (add_finite_mono p1 p2 (Finite a1) (Finite a2)) as Hsum.
  unfold le in Hp'. cbn in Hp'. apply Qle_bool_iff in Hp'.
  specialize (Hsum Hp' Ha').
  cbn [add] in Hsum |- *.
  destruct (round_between (p1 + a1) 0 32 0 32) as (c1 & Ec1 & _);
    [lra | reflexivity | vm_compute; reflexivity | reflexivity | reflexivity |].
  destruct (round_between (p2 + a2) 0 32 0 32) as (c2 & Ec2 & _);
    [lra | reflexivity | vm_compute; reflexivity | reflexivity | reflexivity |].
  rewrite Ec1, Ec2 in Hsum |- *.
  unfold le in Hsum. cbn in Hsum. apply Qle_bool_iff in Hsum.
  now apply add_finite_mono.
Qed.

(** The score grows with the points of either level and with the
    present count. *)
Lemma compute_cei_mono participation1 participation2
    attentiveness1 attentiveness2 present1 present2 class_size score1 score2 :
  (0 < class_size)%Z ->
  (level_points participation1 <= level_points participation2)%Z ->
  (level_points attentiveness1 <= level_points attentiveness2)%Z ->
  (present1 <= present2)%Z ->
  compute_cei participation1 attentiveness1 present1 class_size = Ok score1 ->
  compute_cei participation2 attentiveness2 present2 class_size = Ok score2 ->
  le score1 score2.
Proof.
  intros Hcs Hp Ha Hn. rewrite !compute_cei_eq by exact Hcs.
  unfold score_formula.
  destruct (truediv present1 class_size) as [ratio1 |] eqn:E1; [| discriminate].
  destruct (truediv present2 class_size) as [ratio2 |] eqn:E2; [| discriminate].
  cbn -[Py.round weighted_sum]. apply py_round_mono.
  apply weighted_sum_mono; try assumption.
  now apply (truediv_mono present1 present2 class_size).
Qed.

(** The score looks at a level through its points only. *)
Lemma compute_cei_points participation1 participation2
    attentiveness1 attentiveness2 present class_size :
  level_points participation1 = level_points participation2 ->
  level_points attentiveness1 = level_points attentiveness2 ->
  compute_cei participation1 attentiveness1 present class_size
  = compute_cei participation2 attentiveness2 present class_size.
Proof.
  intros Hp Ha. destruct (Z.le_gt_cases class_size 0) as [Hcs | Hcs].
  - now rewrite !compute_cei_guard.
  - rewrite !compute_cei_eq by lia. unfold score_formula, weighted_sum.
    now rewrite Hp, Ha.
Qed.

(** From the whole class on, the score is that of the whole class. *)
Lemma compute_cei_saturates participation attentiveness present class_size
    ratio :
  (0 < class_size <= present)%Z ->
  truediv present class_size = Ok ratio ->
  compute_cei participation attentiveness present class_size
  = compute_cei participation attentiveness class_size class_size.
Proof.
  intros [Hcs Hp] Hdiv. rewrite !compute_cei_eq by exact Hcs.
  unfold score_formula. rewrite Hdiv, truediv_whole by exact Hcs.
  cbn -[Py.round weighted_sum]. unfold weighted_sum.
  assert (exists r, ratio = Finite r) as [r ->].
  { destruct (truediv_cases present class_size Hcs) as [H | (r & H & _)];
      rewrite H in Hdiv; [discriminate |]. injection Hdiv as <-. eauto. }
  rewrite !presence_component_clamped; [reflexivity | lra |].
  apply (truediv_ge_1 present class_size); [lia | exact Hdiv].
Qed.

Lemma level_points_cases level :
  level = "low" \/ level = "medium" \/ level = "high" ->
  (10 <= level_points level <= 40)%Z.
Proof. intros [-> | [-> | ->]]; vm_compute; split; discriminate. Qed.

End Monotone.

(** ** The loop over the rules *)

Section Rules.

Implicit Types avg : float.

(** The loop returns the first rule that matches, or the fallback. *)
Lemma interpret_avg_find avg (rules : list rule) :
  interpret_avg avg rules
  = match List.find (rule_matches avg) rules with
    | Some rule => (status rule, message rule)
    | None => fallback
    end.
Proof.
  induction rules as [| rule rest IH]; [reflexivity |].
  cbn [interpret_avg List.find]. fold (rule_matches avg rule).
  now destruct (rule_matches avg rule).
Qed.

(** The bands of [ENGAGEMENT_RULES] do not overlap. *)
Lemma rules_disjoint avg (rule1 rule2 : rule) :
  rule1 ∈ ENGAGEMENT_RULES -> rule2 ∈ ENGAGEMENT_RULES ->
  rule_matches avg rule1 = true -> rule_matches avg rule2 = true ->
  rule1 = rule2.
Proof.
  intros H1 H2. unfold ENGAGEMENT_RULES in H1, H2.
  repeat (apply elem_of_cons in H1 as [-> | H1]);
    try (now apply elem_of_nil in H1);
    repeat (apply elem_of_cons in H2 as [-> | H2]);
    try (now apply elem_of_nil in H2);
    unfold rule_matches; cbn [rule_min rule_max];
    rewrite !andb_true_iff; intros [? ?] [? ?];
    try reflexivity; exfalso; destruct avg as [v | [|] |]; bands.
Qed.

(** Searching a list for the one element that can match does not depend
    on the order of the list. *)
Lemma find_unique_permutation {A : Type} (P : A -> bool) (l l' : list A) :
  l ≡ₚ l' ->
  (forall x y, x ∈ l -> y ∈ l -> P x = true -> P y = true -> x = y) ->
  List.find P l = List.find P l'.
Proof.
  induction 1 as [| x l l' Hperm IH | x y l | l l' l'' H1 IH1 H2 IH2];
    intros Huniq.
  - reflexivity.
  - cbn. destruct (P x); [reflexivity |]. apply IH.
    intros a b Ha Hb. apply Huniq; now apply list_elem_of_further.
  - cbn. destruct (P x) eqn:Hx, (P y) eqn:Hy; try reflexivity.
    f_equal. apply Huniq; trivial.
    + apply list_elem_of_here.
    + apply list_elem_of_further, list_elem_of_here.
  - rewrite IH1 by exact Huniq. apply IH2.
    intros a b Ha Hb. apply Huniq; now rewrite H1.
Qed.

End Rules.

(** * The specified properties *)

(** ** The score calculator: specified properties *)

(** C1, as amended.  For every input with a positive class size,
    [compute_cei] evaluates
    [round(0.4*P + 0.4*A + 0.2*min((present/class_size)*40, 40), 2)] in
    double arithmetic, where P and A are the points of the two levels
    under the mapping low -> 10, medium -> 25, high -> 40, any other
    string -> 0.  It returns that score whenever the present count is at
    most [2^1023] in size, and raises nothing but the [OverflowError] of
    a quotient [present / class_size] beyond the range of a double.  The
    score is the double nearest to a number of two decimals within half a
    hundredth of the double sum (not of the exact sum: 26.07 and not
    26.08 at [("high", "medium", 3, 320)]), ties going to the even
    hundredth; and [compute_cei("medium", "medium", 5, 10)] is 24.0. *)
Theorem C1_score_is_formula :
  (forall (participation attentiveness : string) (present class_size : Z),
      (0 < class_size)%Z ->
      compute_cei participation attentiveness present class_size
      = (ratio ← truediv present class_size;
         Py.round
           (add (add (mul (Float.round 0.4)
                          (exact (level_points participation)))
                     (mul (Float.round 0.4)
                          (exact (level_points attentiveness))))
                (mul (Float.round 0.2) (Py.min (mul ratio (exact 40)) 40)))
           2))
  /\ (forall (participation attentiveness : string) (present class_size : Z),
        (0 < class_size)%Z -> (Z.abs present <= 2 ^ 1023)%Z ->
        exists score : float,
          compute_cei participation attentiveness present class_size
          = Ok score)
  /\ (forall (participation attentiveness : string) (present class_size : Z)
             (e : exn),
        compute_cei participation attentiveness present class_size = Raise e ->
        e = OverflowError
        /\ truediv present class_size = Raise OverflowError)
  /\ (forall (participation attentiveness : string) (present class_size : Z)
             (ratio : float) (s : Q),
        (0 < class_size)%Z ->
        truediv present class_size = Ok ratio ->
        weighted_sum participation attentiveness ratio = Finite s ->
        exists k : Z,
          compute_cei participation attentiveness present class_size
          = Ok (Float.round (k # 100))
          /\ - (1 # 200) <= (k # 100) - s <= 1 # 200)
  /\ level_points "low" = 10%Z
  /\ level_points "medium" = 25%Z
  /\ level_points "high" = 40%Z
  /\ (forall level : string,
        level <> "low" -> level <> "medium" -> level <> "high" ->
        level_points level = 0%Z)
  /\ compute_cei "medium" "medium" 5 10 = Ok (Finite 24)
  /\ compute_cei "low" "low" 1 320 = Ok (Float.round 8.03)
  /\ compute_cei "high" "medium" 3 320 = Ok (Float.round 26.07)
  /\ compute_cei "high" "medium" 1 3 = Ok (Float.round 28.67)
  /\ compute_cei "low" "low" 1 64 = Ok (Float.round 8.12)
  /\ compute_cei "low" "low" 3 64 = Ok (Float.round 8.38).
Proof.
  split; [| split; [| split; [| split]]].
  - intros participation attentiveness present class_size Hcs.
    now apply compute_cei_eq.
  - intros participation attentiveness present class_size Hcs Hp.
    apply compute_cei_returns. now right.
  - intros participation attentiveness present class_size e H.
    apply compute_cei_raises in H as (He & _ & Hdiv). now split.
  - intros participation attentiveness present class_size ratio s Hcs Hdiv Hs.
    rewrite compute_cei_eq by exact Hcs. unfold score_formula.
    rewrite Hdiv. cbn -[Py.round weighted_sum]. rewrite Hs.
    destruct (score_formula_cases participation attentiveness present
                class_size Hcs) as [[Hr _] | (r & score & Hr & Hrun & _)].
    + rewrite Hdiv in Hr. discriminate.
    + unfold score_formula in Hrun. rewrite Hdiv in Hrun.
      cbn -[Py.round weighted_sum] in Hrun. rewrite Hs in Hrun.
      rewrite Hrun.
      destruct (py_round_two_decimals s score Hrun) as (k & -> & Hk).
      now exists k.
  - repeat split; try (vm_compute; reflexivity).
    intros level H1 H2 H3. unfold level_points. now repeat case_decide.
Qed.

Lemma C1_score_is_formula_witness :
  compute_cei "high" "absent-minded" 12 30 = Ok (Float.round 19.2).
Proof.
  rewrite (proj1 C1_score_is_formula "high" "absent-minded" 12%Z 30%Z);
    [vm_compute; reflexivity | lia].
Defined.

(** C1, as stated, fails: with a positive class size and a present count
    whose quotient is too large for a double, [compute_cei] raises
    [OverflowError] and returns no score. *)
Lemma C1_no_score_on_overflow :
  (0 < 1)%Z
  /\ compute_cei "medium" "medium" (10 ^ 400) 1 = Raise OverflowError
  /\ ~ exists score : float,
         compute_cei "medium" "medium" (10 ^ 400) 1 = Ok score.
Proof.
  assert (compute_cei "medium" "medium" (10 ^ 400) 1 = Raise OverflowError)
    as Hrun by (vm_compute; reflexivity).
  split; [lia |]. split; [exact Hrun |].
  intros [score H]. rewrite Hrun in H. discriminate.
Qed.

(** C5, as amended.  For every positive class size the presence
    component is [min((present/class_size)*40, 40)] in double
    arithmetic, hence at most 40, and exactly 40 when at least the whole
    class is present; this holds whenever the quotient
    [present / class_size] is in the range of a double, which it is for
    every present count of at most [2^1023] in size, and otherwise the
    division raises [OverflowError].
    [compute_cei("low", "high", 100, 10)] is 28.0. *)
Theorem C5_presence_clamped (present class_size : Z) :
  (0 < class_size)%Z ->
  ((truediv present class_size = Raise OverflowError
    /\ presence_score present class_size = Raise OverflowError)
   \/ (exists ratio presence : float,
         truediv present class_size = Ok ratio
         /\ presence_score present class_size = Ok presence
         /\ presence = Py.min (mul ratio (exact 40)) 40
         /\ le presence (exact 40)
         /\ ((class_size <= present)%Z -> presence = exact 40)))
  /\ ((Z.abs present <= 2 ^ 1023)%Z ->
      exists presence : float,
        presence_score present class_size = Ok presence
        /\ le presence (exact 40))
  /\ presence_score 100 10 = Ok (exact 40)
  /\ compute_cei "low" "high" 100 10 = Ok (Finite 28).
Proof.
  intros Hcs.
  pose proof (presence_score_cases present class_size Hcs) as Hcases.
  split; [exact Hcases |]. split; [| split; vm_compute; reflexivity].
  intros Hp. destruct (truediv_in_range present class_size Hcs Hp) as [r Hr].
  destruct Hcases as [[Hdiv _] | (ratio & presence & _ & Hrun & _ & Hle & _)].
  - rewrite Hr in Hdiv. discriminate.
  - eauto.
Qed.

Lemma C5_presence_clamped_witness :
  (0 < 20)%Z /\ presence_score 35 20 = Ok (exact 40).
Proof.
  split; [lia |].
  destruct (C5_presence_clamped 35 20) as [Hcases _]; [lia |].
  destruct Hcases as [[_ Hrun] | (ratio & presence & _ & Hrun & _ & _ & Hfull)].
  - vm_compute in Hrun. discriminate Hrun.
  - rewrite Hrun, Hfull; [reflexivity | lia].
Defined.

(** C5, as stated, fails: for a positive class size and a present count
    far above it, the presence component does not come out as 40; the
    division raises [OverflowError] before [min] is reached. *)
Lemma C5_no_presence_on_overflow :
  (0 < 1 < 10 ^ 400)%Z
  /\ ~ exists presence : float,
         presence_score (10 ^ 400) 1 = Ok presence.
Proof.
  split; [split; [lia | reflexivity] |].
  assert (presence_score (10 ^ 400) 1 = Raise OverflowError) as Hrun
    by (vm_compute; reflexivity).
  intros [presence H]. rewrite Hrun in H. discriminate.
Qed.

(** C6.  Whenever the class size is zero or negative, [compute_cei]
    returns 0 whatever the other arguments are; the division is not
    reached, so no [ZeroDivisionError] is raised. *)
Theorem C6_nonpositive_class_size
    (participation attentiveness : string) (present class_size : Z) :
  (class_size <= 0)%Z ->
  compute_cei participation attentiveness present class_size = Ok (exact 0)
  /\ compute_cei participation attentiveness present class_size
     <> Raise ZeroDivisionError.
Proof.
  intros Hcs. rewrite compute_cei_guard by exact Hcs.
  split; [reflexivity | discriminate].
Qed.

Lemma C6_nonpositive_class_size_witness :
  truediv 7 0 = Raise ZeroDivisionError
  /\ compute_cei "high" "low" 7 0 = Ok (exact 0).
Proof.
  split; [reflexivity |].
  apply (C6_nonpositive_class_size "high" "low" 7 0). lia.
Defined.

(** C7, as amended.  For arbitrary level strings, a present count that
    is not negative and any class size, every score that [compute_cei]
    returns lies in the closed interval from 0 to 100 (and is at most
    40).  It returns a score whenever the present count is at most
    [2^1023]; beyond, it can only raise the [OverflowError] of the
    division [present / class_size], with a positive class size. *)
Theorem C7_score_range
    (participation attentiveness : string) (present class_size : Z) :
  (0 <= present)%Z ->
  (forall score : float,
      compute_cei participation attentiveness present class_size = Ok score ->
      le (exact 0) score /\ le score (exact 100) /\ le score (exact 40))
  /\ ((present <= 2 ^ 1023)%Z ->
      exists score : float,
        compute_cei participation attentiveness present class_size = Ok score
        /\ le (exact 0) score /\ le score (exact 100))
  /\ (forall e : exn,
        compute_cei participation attentiveness present class_size = Raise e ->
        e = OverflowError /\ (0 < class_size)%Z /\ (2 ^ 1023 < present)%Z
        /\ truediv present class_size = Raise OverflowError).
Proof.
  intros Hpres.
  assert (forall score : float,
             compute_cei participation attentiveness present class_size
             = Ok score ->
             le (exact 0) score /\ le score (exact 100) /\ le score (exact 40))
    as Hrange.
  { intros score Hrun.
    pose proof (compute_cei_ge _ _ _ _ _ Hpres Hrun) as H0.
    pose proof (compute_cei_le _ _ _ _ _ Hrun) as H40.
    repeat split; try assumption.
    unfold le, exact in *. destruct score as [v | [|] |]; try discriminate.
    cbn in *. apply Qle_bool_iff in H40. apply Qle_bool_iff. 
    unfold inject_Z in *. lra. }
  split; [exact Hrange |]. split.
  - intros Hp.
    destruct (compute_cei_returns participation attentiveness present
                class_size) as [score Hrun]; [right; lia |].
    exists score. split; [exact Hrun |].
    destruct (Hrange score Hrun) as (H0 & H100 & _). now split.
  - intros e H. pose proof H as H'.
    apply compute_cei_raises in H as (He & Hcs & Hdiv).
    repeat split; try assumption.
    destruct (Z.le_gt_cases present (2 ^ 1023)) as [Hp | Hp]; [| lia].
    destruct (compute_cei_returns participation attentiveness present
                class_size) as [score Hrun]; [right; lia |].
    rewrite Hrun in H'. discriminate.
Qed.

Lemma C7_score_range_witness :
  exists score : float,
    compute_cei "medium" "high" 45 30 = Ok score
    /\ le (exact 0) score /\ le score (exact 100).
Proof.
  apply (C7_score_range "medium" "high" 45 30);
    [lia | vm_compute; discriminate].
Defined.

(** C7, as stated, fails: for a present count that is not negative but
    too large for a double, there is no result in the interval;
    [compute_cei] raises [OverflowError]. *)
Lemma C7_no_result_on_overflow :
  (0 <= 10 ^ 400)%Z
  /\ ~ exists score : float,
         compute_cei "low" "low" (10 ^ 400) 1 = Ok score
         /\ le (exact 0) score /\ le score (exact 100).
Proof.
  split; [lia |].
  assert (compute_cei "low" "low" (10 ^ 400) 1 = Raise OverflowError) as Hrun
    by (vm_compute; reflexivity).
  intros (score & H & _). rewrite Hrun in H. discriminate.
Qed.

(** C10.  Some input with a negative present count and a positive class
    size yields a negative score: [compute_cei("low", "low", -100, 10)]
    is -72, because [min] bounds the presence term (here -400) only from
    above. *)
Theorem C10_negative_present_negative_score :
  (exists presence : Q,
      presence_score (-100) 10 = Ok (Finite presence) /\ presence == -400)
  /\ compute_cei "low" "low" (-100) 10 = Ok (Finite (-72))
  /\ exists (participation attentiveness : string) (present class_size : Z)
        (score : float),
      (present < 0)%Z /\ (0 < class_size)%Z
      /\ compute_cei participation attentiveness present class_size = Ok score
      /\ lt score (exact 0).
Proof.
  split; [| split].
  - eexists. split; vm_compute; reflexivity.
  - vm_compute. reflexivity.
  - exists "low", "low", (-100)%Z, 10%Z, (Finite (-72)).
    split; [lia |]. split; [lia |]. split; vm_compute; reflexivity.
Qed.

(** ** The trend interpreter: specified properties *)



(** C3, as amended.  On the empty series [interpret_engagement] returns
    red with the message of the lowest band, "Engagement is low": the
    guard of its first line sets the average of an empty series to 0
    without calling [series.mean()], and the band 0 <= avg < 60 matches
    0 before the fallback is reached. *)
Theorem C3_empty_series_is_low (mean : Series -> float) :
  interpret_engagement mean []
  = ("red", "Engagement is low. Consider changing pace or method.").
Proof. reflexivity. Qed.

(** C3, as stated, fails: the empty series does not get the fallback
    message, whatever [series.mean()] would do. *)
Lemma C3_empty_series_not_unclear :
  ~ exists mean : Series -> float,
      interpret_engagement mean []
      = ("red", "Engagement data unclear. Please reflect more consistently.").
Proof. intros [mean H]. vm_compute in H. discriminate H. Qed.

(** C4.  For the empty series the mean is taken to be 0, so the answer
    is that of classifying a mean of 0: red, "Engagement is low".  No
    minimum length is required: every series of length 0 or 1 gets one
    of the four defined answers. *)
Theorem C4_empty_series_mean_zero :
  (forall mean : Series -> float, series_avg mean [] = exact 0)
  /\ (forall mean : Series -> float,
        interpret_engagement mean [] = interpret_avg (exact 0) ENGAGEMENT_RULES)
  /\ interpret_avg (exact 0) ENGAGEMENT_RULES
     = ("red", "Engagement is low. Consider changing pace or method.")
  /\ forall (mean : Series -> float) (series : Series),
      (length series <= 1)%nat ->
      interpret_engagement mean series
      = ("green", "Class is responding well. Keep your current approach.")
      \/ interpret_engagement mean series
         = ("yellow", "Engagement is fair. Small adjustments may help.")
      \/ interpret_engagement mean series
         = ("red", "Engagement is low. Consider changing pace or method.")
      \/ interpret_engagement mean series
         = ("red", "Engagement data unclear. Please reflect more consistently.").
Proof.
  repeat split. intros mean series _. unfold interpret_engagement.
  apply interpret_avg_cases.
Qed.

Lemma C4_empty_series_mean_zero_witness :
  interpret_engagement Pandas.mean [exact 82]
  = ("green", "Class is responding well. Keep your current approach.").
Proof.
  destruct C4_empty_series_mean_zero as (_ & _ & _ & Hdefined).
  destruct (Hdefined Pandas.mean [exact 82]) as [H | [H | [H | H]]];
    [cbn; lia | exact H | vm_compute in H; discriminate H ..].
Defined.






(** * Further properties *)

(** ** The score calculator: further properties *)

(** X1.  With the levels and a positive class size fixed, a larger
    present count never gives a lower score. *)
Theorem more_present_never_lowers_score
    (participation attentiveness : string) (present1 present2 class_size : Z)
    (score1 score2 : float) :
  (0 < class_size)%Z -> (present1 <= present2)%Z ->
  compute_cei participation attentiveness present1 class_size = Ok score1 ->
  compute_cei participation attentiveness present2 class_size = Ok score2 ->
  le score1 score2.
Proof.
  intros Hcs Hp. now apply compute_cei_mono.
Qed.

Lemma more_present_never_lowers_score_witness :
  le (Float.round 26.07) (Float.round 26.18).
Proof.
  apply (more_present_never_lowers_score "high" "medium" 3 7 320);
    [lia | lia | vm_compute; reflexivity | vm_compute; reflexivity].
Defined.

(** X2.  From the whole class on, more students present change nothing:
    while the division returns, the score is the score of the whole
    class being present. *)
Theorem score_saturates_at_class_size
    (participation attentiveness : string) (present class_size : Z)
    (ratio : float) :
  (0 < class_size <= present)%Z ->
  truediv present class_size = Ok ratio ->
  compute_cei participation attentiveness present class_size
  = compute_cei participation attentiveness class_size class_size.
Proof. apply compute_cei_saturates. Qed.

Lemma score_saturates_at_class_size_witness :
  compute_cei "low" "high" 100 10 = compute_cei "low" "high" 10 10.
Proof.
  apply (score_saturates_at_class_size "low" "high" 100 10 (Finite 10));
    [lia | vm_compute; reflexivity].
Defined.

(** X3.  A level with more points, in either category, never gives a
    lower score. *)
Theorem better_level_never_lowers_score
    (participation1 participation2 attentiveness1 attentiveness2 : string)
    (present class_size : Z) (score1 score2 : float) :
  (0 < class_size)%Z ->
  (level_points participation1 <= level_points participation2)%Z ->
  (level_points attentiveness1 <= level_points attentiveness2)%Z ->
  compute_cei participation1 attentiveness1 present class_size = Ok score1 ->
  compute_cei participation2 attentiveness2 present class_size = Ok score2 ->
  le score1 score2.
Proof.
  intros Hcs Hp Ha. apply compute_cei_mono; trivial. lia.
Qed.

Lemma better_level_never_lowers_score_witness :
  le (Float.round 8.03) (Float.round 20.02).
Proof.
  apply (better_level_never_lowers_score "low" "high" "low" "low" 1 320);
    [lia | vm_compute; discriminate | vm_compute; discriminate
     | vm_compute; reflexivity | vm_compute; reflexivity].
Defined.

(** X4.  The two levels carry the same weight: exchanging them does not
    change the outcome. *)
Theorem levels_are_interchangeable
    (participation attentiveness : string) (present class_size : Z) :
  compute_cei participation attentiveness present class_size
  = compute_cei attentiveness participation present class_size.
Proof.
  destruct (Z.le_gt_cases class_size 0) as [Hcs | Hcs].
  - now rewrite !compute_cei_guard.
  - rewrite !compute_cei_eq by lia. unfold score_formula, weighted_sum.
    now rewrite (add_comm (mul (Float.round 0.4)
                               (exact (level_points participation)))).
Qed.

(** X5.  A level that is not in the table counts as 0 points, so any two
    such levels give the same outcome; the score looks at a level
    through its points only. *)
Theorem unknown_levels_score_alike
    (level1 level2 attentiveness : string) (present class_size : Z) :
  CEI_LEVEL_SCORES !! level1 = None -> CEI_LEVEL_SCORES !! level2 = None ->
  compute_cei level1 attentiveness present class_size
  = compute_cei level2 attentiveness present class_size
  /\ compute_cei attentiveness level1 present class_size
     = compute_cei attentiveness level2 present class_size.
Proof.
  intros H1 H2.
  assert (level_points level1 = level_points level2) as Hpoints.
  { rewrite <- !get_level_scores. unfold get. now rewrite H1, H2. }
  split; now apply compute_cei_points.
Qed.

Lemma unknown_levels_score_alike_witness :
  compute_cei "High" "low" 12 30 = compute_cei "" "low" 12 30.
Proof.
  apply (unknown_levels_score_alike "High" "" "low" 12 30);
    vm_compute; reflexivity.
Defined.

(** X6.  With one of the three levels of the table in each category and
    a present count between 0 and a positive class size, there is always
    a score, and it lies between 8 and 40.  Both bounds are reached, for
    every class size: 8 with both levels low and nobody present, 40 with
    both levels high and the whole class present. *)
Theorem in_class_scores_between_8_and_40
    (participation attentiveness : string) (present class_size : Z) :
  participation ∈ ["low"; "medium"; "high"] ->
  attentiveness ∈ ["low"; "medium"; "high"] ->
  (0 < class_size)%Z -> (0 <= present <= class_size)%Z ->
  (exists score : float,
      compute_cei participation attentiveness present class_size = Ok score
      /\ le (exact 8) score /\ le score (exact 40))
  /\ compute_cei "low" "low" 0 class_size = Ok (Finite 8)
  /\ compute_cei "high" "high" class_size class_size = Ok (Finite 40).
Proof.
  intros Hp Ha Hcs Hn.
  assert (compute_cei "low" "low" 0 class_size = Ok (Finite 8)) as Hlow.
  { rewrite compute_cei_eq by exact Hcs. unfold score_formula.
    rewrite truediv_zero by exact Hcs. vm_compute. reflexivity. }
  assert (compute_cei "high" "high" class_size class_size = Ok (Finite 40))
    as Hhigh.
  { rewrite compute_cei_eq by exact Hcs. unfold score_formula.
    rewrite truediv_whole by exact Hcs. vm_compute. reflexivity. }
  split; [| now split].
  destruct (truediv_fraction present class_size Hcs Hn) as (r & Hdiv & _).
  destruct (score_formula_cases participation attentiveness present
              class_size Hcs) as [[Hr _] | (ratio & score & _ & Hrun & Hle & _)].
  { rewrite Hdiv in Hr. discriminate. }
  rewrite <- compute_cei_eq in Hrun by exact Hcs.
  exists score. split; [exact Hrun |]. split; [| exact Hle].
  assert (10 <= level_points participation <= 40)%Z.
  { apply level_points_cases.
    repeat (apply elem_of_cons in Hp as [-> | Hp]); auto.
    now apply elem_of_nil in Hp. }
  assert (10 <= level_points attentiveness <= 40)%Z.
  { apply level_points_cases.
    repeat (apply elem_of_cons in Ha as [-> | Ha]); auto.
    now apply elem_of_nil in Ha. }
  apply (compute_cei_mono "low" participation "low" attentiveness 0 present
           class_size (Finite 8) score); try assumption; try lia.
  - change (level_points "low") with 10%Z. lia.
  - change (level_points "low") with 10%Z. lia.
Qed.

Lemma in_class_scores_between_8_and_40_witness :
  exists score : float,
    compute_cei "medium" "high" 17 30 = Ok score
    /\ le (exact 8) score /\ le score (exact 40).
Proof.
  apply (in_class_scores_between_8_and_40 "medium" "high" 17 30);
    [repeat constructor | repeat constructor | lia | lia].
Defined.

(** ** The trend interpreter: further properties *)

(** X7.  The bands of [ENGAGEMENT_RULES] do not overlap, so the order in
    which the loop tries the rules does not matter: every reordering of
    the rules classifies every average the same way. *)
Theorem rule_order_is_irrelevant (avg : float) (rules : list rule) :
  rules ≡ₚ ENGAGEMENT_RULES ->
  interpret_avg avg rules = interpret_avg avg ENGAGEMENT_RULES.
Proof.
  intros Hperm. rewrite !interpret_avg_find.
  rewrite (find_unique_permutation (rule_matches avg) ENGAGEMENT_RULES rules);
    [reflexivity | now symmetry |].
  intros rule1 rule2. apply rules_disjoint.
Qed.

Lemma rule_order_is_irrelevant_witness :
  interpret_avg (Finite 67) (reverse ENGAGEMENT_RULES) = yellow.
Proof.
  rewrite (rule_order_is_irrelevant (Finite 67) (reverse ENGAGEMENT_RULES)).
  - reflexivity.
  - apply reverse_Permutation.
Defined.

(** X8.  Whatever the series and its mean, the status is one of the
    three colours, and red comes with one of two messages; a mean that
    is NaN or infinite gets the fallback. *)
Theorem interpret_engagement_answers (mean : Series -> float)
    (series : Series) :
  interpret_engagement mean series ∈ [green; yellow; red_low; fallback]
  /\ fst (interpret_engagement mean series) ∈ ["green"; "yellow"; "red"]
  /\ (forall negative : bool,
         series <> [] ->
         mean series = NaN \/ mean series = Infinity negative ->
         interpret_engagement mean series = fallback).
Proof.
  unfold interpret_engagement.
  assert (interpret_avg (series_avg mean series) ENGAGEMENT_RULES
          ∈ [green; yellow; red_low; fallback]) as Hcases.
  { destruct (interpret_avg_cases (series_avg mean series))
      as [-> | [-> | [-> | ->]]]; set_solver. }
  split; [exact Hcases |]. split.
  - repeat (apply elem_of_cons in Hcases as [-> | Hcases]);
      [set_solver .. |]. now apply elem_of_nil in Hcases.
  - intros negative Hne H. rewrite (series_avg_mean mean series Hne).
    destruct H as [-> | ->]; [reflexivity |]. now destruct negative.
Qed.

Lemma interpret_engagement_answers_witness :
  interpret_engagement Pandas.mean [Infinity true; exact 3] = fallback.
Proof.
  destruct (interpret_engagement_answers Pandas.mean [Infinity true; exact 3])
    as (_ & _ & H).
  apply (H true); [discriminate | right; vm_compute; reflexivity].
Defined.

(** X9.  A series that holds nothing but missing scores has no mean, and
    the interpreter answers with the fallback. *)
Theorem missing_scores_are_unclear (series : Series) :
  series <> [] -> Forall (fun score => score = NaN) series ->
  Pandas.mean series = NaN
  /\ interpret_engagement Pandas.mean series = fallback.
Proof.
  intros Hne Hall.
  assert (Pandas.mean series = NaN) as Hmean.
  { unfold Pandas.mean.
    assert (List.filter (fun x => negb (is_nan x)) series = []) as ->;
      [| reflexivity].
    clear Hne. induction Hall as [| x l -> _ IH]; [reflexivity | exact IH]. }
  split; [exact Hmean |]. unfold interpret_engagement.
  rewrite (series_avg_mean Pandas.mean series Hne), Hmean. reflexivity.
Qed.

Lemma missing_scores_are_unclear_witness :
  interpret_engagement Pandas.mean [NaN; NaN] = fallback.
Proof.
  apply (missing_scores_are_unclear [NaN; NaN]);
    [discriminate | repeat constructor].
Defined.

(** * The pages that write to the store *)

Import Sql App.

(** ** The store *)

Section Store.

Implicit Types db : database.
Implicit Types t : table.

Lemma create_table_lookup name columns key auto db other :
  create_table_if_not_exists name columns key auto db !! other
  = match db !! other with
    | Some t => Some t
    | None => if decide (name = other) then Some (Table columns key auto [])
              else None
    end.
Proof.
  unfold create_table_if_not_exists.
  destruct (db !! name) eqn:Hname.
  - destruct (db !! other) eqn:Hother; [done |].
    case_decide; [congruence | done].
  - destruct (decide (name = other)) as [<- | Hne].
    + by rewrite lookup_insert_eq, Hname.
    + rewrite lookup_insert_ne by done. by destruct (db !! other).
Qed.

(** [init_db] keeps every table it finds and creates the missing ones
    empty. *)
Lemma init_db_lookup db name :
  init_db db !! name
  = match db !! name with
    | Some t => Some t
    | None => init_db ∅ !! name
    end.
Proof.
  unfold init_db. rewrite !create_table_lookup, lookup_empty.
  by destruct (db !! name).
Qed.

Lemma init_db_tables name :
  name ∈ ["teachers"; "classes"; "daily_reflections"; "weekly_reflections"] ->
  is_Some (init_db ∅ !! name).
Proof.
  intros H. repeat (apply elem_of_cons in H as [-> | H]); try by eexists.
  by apply elem_of_nil in H.
Qed.

Lemma init_db_idempotent db : init_db (init_db db) = init_db db.
Proof.
  apply map_eq. intros name. rewrite (init_db_lookup (init_db db)).
  rewrite (init_db_lookup db). destruct (db !! name); [done |].
  by destruct (init_db ∅ !! name).
Qed.

(** A statement that names a column the table does not have fails, and
    with the first such column in its message. *)
Lemma insert_unknown_column or_ignore name into values db t column :
  db !! name = Some t -> column ∈ into -> column ∉ columns t ->
  exists msg,
    insert or_ignore name (Some into) values db = Failed (OperationalError msg).
Proof.
  intros Ht Hin Hnot. unfold insert. rewrite Ht. simpl.
  match goal with
  | |- context [List.find ?f into] =>
      destruct (List.find f into) as [c |] eqn:Hfind
  end; [by eexists |].
  exfalso. pose proof (find_none _ _ Hfind column) as Hnone. cbn in Hnone.
  rewrite bool_decide_eq_false_2 in Hnone by done.
  by discriminate Hnone; apply list_elem_of_In.
Qed.

Lemma existsb_pointwise {A : Type} (f g : A -> bool) (l : list A) :
  (forall x, f x = g x) -> existsb f l = existsb g l.
Proof.
  intros Hfg. induction l as [| x l IH]; [done |].
  cbn. by rewrite Hfg, IH.
Qed.

(** The row that [login] binds: its key columns. *)
Lemma teacher_row t teacher school name :
  columns t = ["teacher_id"; "school_id"; "teacher_name"] ->
  let r := complete t (list_to_map (zip (columns t)
                                        [Text teacher; Text school; Text name])) in
  r !! "teacher_id" = Some (Text teacher)
  /\ r !! "school_id" = Some (Text school)
  /\ r !! "teacher_name" = Some (Text name).
Proof.
  destruct t as [cols key auto rs]. cbn. intros ->. by vm_compute.
Qed.

Lemma same_teacher_key (r1 r2 x : row) teacher school :
  r1 !! "teacher_id" = Some (Text teacher) ->
  r1 !! "school_id" = Some (Text school) ->
  r2 !! "teacher_id" = Some (Text teacher) ->
  r2 !! "school_id" = Some (Text school) ->
  same_key ["teacher_id"; "school_id"] r1 x
  = same_key ["teacher_id"; "school_id"] r2 x
  /\ same_key ["teacher_id"; "school_id"] r1 r2 = true.
Proof.
  intros H1 H2 H3 H4. unfold same_key, column_is. cbn [forallb].
  rewrite H1, H2, H3, H4. cbn. by rewrite !String.eqb_refl.
Qed.

(** [INSERT OR IGNORE INTO teachers] on a table with the columns and the
    key that [init_db] gives it. *)
Lemma insert_teacher db t teacher school name :
  db !! "teachers" = Some t ->
  columns t = ["teacher_id"; "school_id"; "teacher_name"] ->
  primary_key t = ["teacher_id"; "school_id"] ->
  let r := complete t (list_to_map (zip (columns t)
                                        [Text teacher; Text school; Text name])) in
  insert true "teachers" None [Text teacher; Text school; Text name] db
  = Done (if existsb (same_key ["teacher_id"; "school_id"] r) (rows t)
          then db
          else <["teachers" := Table (columns t) (primary_key t)
                                     (autoincrement t) (rows t ++ [r])]> db).
Proof.
  intros Ht Hcols Hkey r. unfold insert. rewrite Ht.
  destruct t as [cols key auto rs]. cbn [columns primary_key autoincrement rows] in *.
  subst cols key. cbn -[complete]. fold r.
  rewrite andb_true_r. by destruct (existsb _ _).
Qed.

End Store.

(** ** Row ids *)

Section Ids.

Lemma max_id_ge column (rs : list row) (r : row) (n : Z) :
  r ∈ rs -> r !! column = Some (Integer n) -> (n <= max_id column rs)%Z.
Proof.
  induction 1 as [r rs | r x rs _ IH]; intros Hr; cbn [max_id foldr].
  - rewrite Hr. lia.
  - specialize (IH Hr). fold (max_id column rs).
    destruct (x !! column) as [[| m | |] |]; lia.
Qed.

(** The next id is not the id of a stored row. *)
Lemma new_id_is_free (rs : list row) (stored : row) :
  Forall (fun x => exists n, x !! "id" = Some (Integer n)) rs ->
  stored !! "id" = Some (Integer (max_id "id" rs + 1)) ->
  existsb (same_key ["id"] stored) rs = false.
Proof.
  intros Hids Hstored.
  destruct (existsb _ rs) eqn:E; [| done]. exfalso.
  apply existsb_exists in E as (x & Hin & Hx).
  apply list_elem_of_In in Hin.
  rewrite Forall_forall in Hids. destruct (Hids x Hin) as [n Hn].
  pose proof (max_id_ge "id" rs x n Hin Hn).
  unfold same_key, column_is in Hx. cbn [forallb] in Hx.
  rewrite Hn, Hstored in Hx. cbn in Hx.
  rewrite andb_true_r in Hx. apply Z.eqb_eq in Hx. lia.
Qed.

End Ids.


(** ** The pages that write to the store: properties *)

(** X10.  [init_db] can run at every start of the script: it keeps
    every table it finds as it is, creates the four tables when they are
    missing, and running it twice is running it once. *)
Theorem init_db_keeps_existing_tables (db : database) :
  init_db (init_db db) = init_db db
  /\ (forall (name : string) (t : table),
        db !! name = Some t -> init_db db !! name = Some t)
  /\ (forall name : string,
        name ∈ ["teachers"; "classes"; "daily_reflections";
                "weekly_reflections"] ->
        is_Some (init_db db !! name)).
Proof.
  split; [apply init_db_idempotent |]. split.
  - intros name t Ht. by rewrite init_db_lookup, Ht.
  - intros name Hname. rewrite init_db_lookup.
    destruct (db !! name); [by eexists | by apply init_db_tables].
Qed.

Lemma init_db_keeps_existing_tables_witness :
  init_db {[ "classes" := Table ["class_id"] [] None [] ]} !! "classes"
  = Some (Table ["class_id"] [] None [])
  /\ is_Some (init_db ∅ !! "weekly_reflections").
Proof.
  destruct (init_db_keeps_existing_tables
              {[ "classes" := Table ["class_id"] [] None [] ]})
    as (_ & Hkeep & _).
  destruct (init_db_keeps_existing_tables ∅) as (_ & _ & Hall).
  split.
  - apply Hkeep. reflexivity.
  - apply Hall. repeat constructor.
Defined.

(** X11.  [login] asks for all three fields: when the button is pressed
    with one of them empty, nothing is written, the session stays as it
    is, and the page shows "All fields are required". *)
Theorem login_requires_every_field
    (form : login_form) (db : database) (state : session) :
  continue form = true ->
  login_school_id form = "" \/ login_teacher_id form = ""
  \/ login_teacher_name form = "" ->
  login form db state
  = Done (db, state,
          [Title "Teacher Classroom Reflection";
           Error "All fields are required"], false).
Proof.
  intros Hclick Hempty. unfold login. rewrite Hclick.
  assert (truthy (login_school_id form) && truthy (login_teacher_id form)
          && truthy (login_teacher_name form) = false) as ->; [| done].
  unfold truthy. destruct Hempty as [-> | [-> | ->]]; cbn;
    rewrite ?andb_false_r; done.
Qed.

Lemma login_requires_every_field_witness :
  login (LoginForm "S1" "T1" "" true) ∅ (Session None None)
  = Done (∅, Session None None,
          [Title "Teacher Classroom Reflection";
           Error "All fields are required"], false).
Proof.
  apply login_requires_every_field; [reflexivity | right; right; reflexivity].
Defined.

(** X12.  [login] registers a teacher once: with the table [teachers] as
    [init_db] creates it, a login with all fields filled in succeeds,
    and a second login with the same school and teacher id, under
    whatever name, succeeds too and leaves the database as the first one
    left it. *)
Theorem login_registers_a_teacher_once
    (form form' : login_form) (db : database) (state state' : session)
    (t : table) :
  db !! "teachers" = Some t ->
  columns t = ["teacher_id"; "school_id"; "teacher_name"] ->
  primary_key t = ["teacher_id"; "school_id"] ->
  continue form = true -> continue form' = true ->
  login_school_id form <> "" -> login_teacher_id form <> "" ->
  login_teacher_name form <> "" -> login_teacher_name form' <> "" ->
  login_school_id form' = login_school_id form ->
  login_teacher_id form' = login_teacher_id form ->
  exists db1 : database,
    login form db state
    = Done (db1,
            Session (Some (login_school_id form)) (Some (login_teacher_id form)),
            [Title "Teacher Classroom Reflection"], true)
    /\ login form' db1 state'
       = Done (db1,
               Session (Some (login_school_id form))
                       (Some (login_teacher_id form)),
               [Title "Teacher Classroom Reflection"], true).
Proof.
  intros Ht Hcols Hkey Hc Hc' Hs Hte Hn Hn' Hsame_s Hsame_t.
  assert (forall s, s <> "" -> truthy s = true) as Htruthy.
  { intros s Hne. unfold truthy. apply negb_true_iff.
    by apply String.eqb_neq. }
  unfold login. rewrite Hc, Hc', Hsame_s, Hsame_t, !Htruthy by done. cbn [andb].
  rewrite (insert_teacher db t _ _ (login_teacher_name form) Ht Hcols Hkey).
  cbn zeta.
  destruct (teacher_row t (login_teacher_id form) (login_school_id form)
              (login_teacher_name form) Hcols) as (Hr1 & Hr2 & _).
  cbn zeta in Hr1, Hr2.
  set (r := complete t (list_to_map
                          (zip _ [_; _; Text (login_teacher_name form)]))) in *.
  destruct (existsb (same_key _ r) (rows t)) eqn:Hknown.
  - exists db. split; [done |].
    rewrite (insert_teacher db t _ _ (login_teacher_name form') Ht Hcols Hkey).
    cbn zeta.
    destruct (teacher_row t (login_teacher_id form) (login_school_id form)
                (login_teacher_name form') Hcols) as (Hr1' & Hr2' & _).
    cbn zeta in Hr1', Hr2'.
    set (r' := complete t (list_to_map
                             (zip _ [_; _; Text (login_teacher_name form')])))
      in *.
    rewrite (existsb_pointwise _ (same_key ["teacher_id"; "school_id"] r)), Hknown;
      [done |].
    intros x. by apply (same_teacher_key r' r x _ _ Hr1' Hr2' Hr1 Hr2).
  - eexists. split; [done |].
    set (t1 := Table _ _ _ _).
    rewrite (insert_teacher _ t1 _ _ (login_teacher_name form')
               (lookup_insert_eq _ _ _) Hcols Hkey).
    cbn zeta.
    destruct (teacher_row t1 (login_teacher_id form) (login_school_id form)
                (login_teacher_name form') Hcols) as (Hr1' & Hr2' & _).
    cbn zeta in Hr1', Hr2'. set (r' := complete t1 _) in *.
    assert (existsb (same_key ["teacher_id"; "school_id"] r') (rows t1) = true)
      as ->; [| done].
    cbn [rows t1]. rewrite existsb_app. cbn [existsb].
    destruct (same_teacher_key r' r r _ _ Hr1' Hr2' Hr1 Hr2) as [_ ->].
    by rewrite orb_true_r.
Qed.

Lemma login_registers_a_teacher_once_witness :
  exists db1 : database,
    login (LoginForm "S1" "T7" "Bola" true) (init_db ∅) (Session None None)
    = Done (db1, Session (Some "S1") (Some "T7"),
            [Title "Teacher Classroom Reflection"], true)
    /\ login (LoginForm "S1" "T7" "Someone else" true) db1 (Session None None)
       = Done (db1, Session (Some "S1") (Some "T7"),
               [Title "Teacher Classroom Reflection"], true).
Proof.
  apply (login_registers_a_teacher_once
           (LoginForm "S1" "T7" "Bola" true)
           (LoginForm "S1" "T7" "Someone else" true) _ _ _
           (Table ["teacher_id"; "school_id"; "teacher_name"]
                  ["teacher_id"; "school_id"] None []));
    try reflexivity; discriminate.
Defined.

(** X13.  [class_setup] stores every submitted form: with the table
    [classes] as [init_db] creates it, which has no key, the submitted
    class is appended as a new row, also when the same class is already
    there; a form that is not submitted changes nothing. *)
Theorem class_setup_stores_every_submission
    (form : class_form) (db : database) (state : session) (t : table) :
  db !! "classes" = Some t ->
  columns t = ["class_id"; "subject_id"; "school_id"; "class_size"] ->
  primary_key t = [] ->
  (class_submitted form = true ->
   exists stored : row,
     class_setup form db state
     = Done (<["classes" := Table (columns t) (primary_key t) (autoincrement t)
                                  (rows t ++ [stored])]> db,
             [Header "Class Setup"; Success "Class added successfully"])
     /\ stored !! "class_id" = Some (Text (class_id form))
     /\ stored !! "subject_id" = Some (Text (subject_id form))
     /\ stored !! "school_id" = Some (parameter (state_school_id state))
     /\ stored !! "class_size" = Some (Integer (class_size form)))
  /\ (class_submitted form = false ->
      class_setup form db state = Done (db, [Header "Class Setup"])).
Proof.
  intros Ht Hcols Hkey. split; intros Hsub; unfold class_setup; rewrite Hsub;
    [| reflexivity].
  unfold insert. rewrite Ht.
  destruct t as [cols key auto rs].
  cbn [columns primary_key autoincrement rows] in *. subst cols key.
  cbn -[complete]. rewrite andb_false_r. cbn -[complete].
  eexists. split; [reflexivity |]. repeat split; by vm_compute.
Qed.

Lemma class_setup_stores_every_submission_witness :
  exists db1 db2 : database,
    class_setup (ClassForm "JSS2 Blue" "Maths" 30 true) (init_db ∅)
      (Session (Some "S1") (Some "T1"))
    = Done (db1, [Header "Class Setup"; Success "Class added successfully"])
    /\ class_setup (ClassForm "JSS2 Blue" "Maths" 30 true) db1
         (Session (Some "S1") (Some "T1"))
       = Done (db2, [Header "Class Setup"; Success "Class added successfully"])
    /\ (length <$> (rows <$> db2 !! "classes")) = Some 2%nat.
Proof.
  destruct (class_setup_stores_every_submission
              (ClassForm "JSS2 Blue" "Maths" 30 true) (init_db ∅)
              (Session (Some "S1") (Some "T1"))
              (Table ["class_id"; "subject_id"; "school_id"; "class_size"]
                     [] None []))
    as [Hfirst _]; [reflexivity .. |].
  destruct (Hfirst eq_refl) as (stored & Hrun & _).
  eexists. eexists. split; [exact Hrun |]. split; vm_compute; reflexivity.
Defined.

(** X14.  No reflection is ever saved to a table [daily_reflections]
    with the columns that [init_db] gives it: the [INSERT] of
    [daily_reflection] names a column [topic] that the table does not
    have, so the statement is refused, whatever the form holds, and the
    block ends in an exception instead of the message "Reflection
    saved". *)
Theorem reflection_is_never_saved
    (cei : result float) (form : daily_form) (db : database)
    (state : session) (t : table) :
  db !! "daily_reflections" = Some t ->
  columns t = columns new_daily_reflections ->
  (forall score : float,
      cei = Ok score ->
      save_reflection cei form db state
      = Failed (OperationalError
                  "table daily_reflections has no column named topic"))
  /\ (forall e : exn,
        cei = Raise e ->
        save_reflection cei form db state = Failed (PythonError e))
  /\ init_db ∅ !! "daily_reflections" = Some new_daily_reflections
  /\ "topic" ∉ columns new_daily_reflections.
Proof.
  intros Ht Hcols. split; [| split; [| split]].
  - intros score ->. unfold save_reflection. cbn.
    unfold insert. rewrite Ht. cbn. rewrite Hcols. reflexivity.
  - intros e ->. reflexivity.
  - reflexivity.
  - by apply (bool_decide_unpack _).
Qed.

Lemma reflection_is_never_saved_witness :
  save_reflection (compute_cei "high" "medium" 27 30)
    (DailyForm (Text "JSS2 Blue") (Text "Maths") "2026-01-12" 27 "high"
               "medium" "classwork" "Fractions" "Went well")
    (init_db ∅) (Session (Some "S1") (Some "T1"))
  = Failed (OperationalError
              "table daily_reflections has no column named topic").
Proof.
  destruct (reflection_is_never_saved (compute_cei "high" "medium" 27 30)
              (DailyForm (Text "JSS2 Blue") (Text "Maths") "2026-01-12" 27
                         "high" "medium" "classwork" "Fractions" "Went well")
              (init_db ∅) (Session (Some "S1") (Some "T1"))
              new_daily_reflections) as [Hrun _].
  - reflexivity.
  - reflexivity.
  - apply (Hrun (Float.round 33.2)). vm_compute. reflexivity.
Defined.

(** X15.  On a table [daily_reflections] that does have a column
    [topic] besides the columns of [init_db], the reflection is saved
    under the next id, with the topic in the column [note] and the note
    in the column [topic]: the statement lists the columns as note,
    topic and binds the values as topic, note. *)
Theorem saved_reflection_swaps_topic_and_note
    (score : float) (form : daily_form) (db : database) (state : session)
    (t : table) :
  db !! "daily_reflections" = Some t ->
  columns t = columns new_daily_reflections ++ ["topic"] ->
  primary_key t = ["id"] ->
  autoincrement t = Some "id" ->
  Forall (fun x => exists n, x !! "id" = Some (Integer n)) (rows t) ->
  exists stored : row,
    save_reflection (Ok score) form db state
    = Done (<["daily_reflections" :=
                Table (columns t) (primary_key t) (autoincrement t)
                      (rows t ++ [stored])]> db,
            [SuccessScore "Reflection saved. Engagement score: " score "%"])
    /\ stored !! "note" = Some (Text (topic form))
    /\ stored !! "topic" = Some (Text (note form))
    /\ stored !! "cei_score" = Some (Real score)
    /\ stored !! "number_present" = Some (Integer (present form))
    /\ stored !! "id" = Some (Integer (max_id "id" (rows t) + 1)).
Proof.
  intros Ht Hcols Hkey Hauto Hids.
  unfold save_reflection. cbn -[insert]. unfold insert. rewrite Ht.
  destruct t as [cols key auto rs].
  cbn [columns primary_key autoincrement rows] in *. subst cols key auto.
  cbn -[complete]. rewrite andb_true_r.
  set (stored := complete _ _).
  assert (stored !! "id" = Some (Integer (max_id "id" rs + 1))) as Hid
    by (by vm_compute).
  rewrite (new_id_is_free rs stored Hids Hid). cbn.
  exists stored. split; [reflexivity |]. repeat split; by vm_compute.
Qed.

Lemma saved_reflection_swaps_topic_and_note_witness :
  exists stored : row,
    stored !! "note" = Some (Text "Fractions")
    /\ stored !! "topic" = Some (Text "Went well")
    /\ stored !! "id" = Some (Integer 1).
Proof.
  destruct (saved_reflection_swaps_topic_and_note (Float.round 33.2)
              (DailyForm (Text "JSS2 Blue") (Text "Maths") "2026-01-12" 27
                         "high" "medium" "classwork" "Fractions" "Went well")
              {[ "daily_reflections" :=
                   Table (columns new_daily_reflections ++ ["topic"])
                         ["id"] (Some "id") [] ]}
              (Session (Some "S1") (Some "T1"))
              (Table (columns new_daily_reflections ++ ["topic"])
                     ["id"] (Some "id") []))
    as (stored & _ & Hnote & Htopic & _ & _ & Hid).
  - reflexivity.
  - reflexivity.
  - reflexivity.
  - reflexivity.
  - constructor.
  - exists stored. split; [exact Hnote |]. split; [exact Htopic | exact Hid].
Defined.
